(** * twicketsbot: the polling client of [main.py]

    A shallow embedding of [TwicketsClient] (file [main.py]) and the
    properties of its control loop, its connection handling and its
    deduplication ledger.

    The client is stateful and talks to the outside world (a socket, a file,
    the clock, a random generator, a push-notification service).  Its methods
    are embedded as functions in a state-and-exception monad: a computation
    maps a [state] to an [outcome] and the state reached, and the state
    reached by a computation that raises is the state at the [raise], as in
    Python.  Everything the outside world answers is read from an [oracle];
    everything the client does to the outside world is appended to a trace
    of [event]s.

    What the model leaves out: JSON numbers with a fractional part; the
    bytes of files and of response bodies (a text is represented by what
    reading and decoding it gives: a document or an exception); the
    difference between [True] and [1] and between [False] and [0] as
    elements of a set; failures of writing the ledger file; rounding in
    [total_seconds()], a duration being an exact number of microseconds;
    Ctrl-C, which no primitive of the model raises by itself (an oracle
    may answer any call with [KeyboardInterrupt]); the arguments of log
    messages.  [run] loops
    forever: the model follows it for a given number of passes and answers
    [OutOfFuel] when they are used up. *)

From Stdlib Require Import ZArith Bool List Lia.
From stdpp Require Import base strings gmap list pretty.

Open Scope Z_scope.

(** ** Python values and exceptions *)

(** What [json.loads] can return (numbers with a fractional part are outside
    the model).  A decoded object is an association list in document order. *)
#[warnings="-register-all"]
Inductive pyval : Type :=
| PNone
| PBool (b : bool)
| PInt (z : Z)
| PStr (s : string)
| PList (l : list pyval)
| PDict (d : list (string * pyval)).

(** The exception classes that the module raises, catches or lets through. *)
Inductive exn_class : Type :=
| KeyboardInterrupt
| SystemExit
| gaierror              (* socket.gaierror, a subclass of OSError *)
| ConnectionResetError  (* a subclass of OSError *)
| OSError
| RemoteDisconnected    (* subclass of ConnectionResetError and of BadStatusLine *)
| ResponseNotReady      (* http.client.ResponseNotReady *)
| HTTPException         (* any other http.client.HTTPException *)
| NotTwoHundredStatusError
| JSONDecodeError
| TypeError
| KeyError
| IndexError
| AttributeError
| NameError
| UnboundLocalError
| RuntimeError
| UnicodeDecodeError    (* a ValueError that is not a JSONDecodeError *)
| RecursionError.

Record exn : Type := Exn { class_of : exn_class; message : string }.

(** [isinstance(e, OSError)] *)
Definition is_OSError (c : exn_class) : bool :=
  match c with
  | gaierror | ConnectionResetError | OSError | RemoteDisconnected => true
  | _ => false
  end.

(** [isinstance(e, http.client.HTTPException)] *)
Definition is_HTTPException (c : exn_class) : bool :=
  match c with
  | RemoteDisconnected | ResponseNotReady | HTTPException => true
  | _ => false
  end.

(** [isinstance(e, Exception)]: everything but the two [BaseException]s. *)
Definition is_Exception (c : exn_class) : bool :=
  match c with
  | KeyboardInterrupt | SystemExit => false
  | _ => true
  end.

Definition is_class (c d : exn_class) : bool :=
  match c, d with
  | KeyboardInterrupt, KeyboardInterrupt | SystemExit, SystemExit
  | gaierror, gaierror | ConnectionResetError, ConnectionResetError
  | OSError, OSError | RemoteDisconnected, RemoteDisconnected
  | ResponseNotReady, ResponseNotReady | HTTPException, HTTPException
  | NotTwoHundredStatusError, NotTwoHundredStatusError
  | JSONDecodeError, JSONDecodeError | TypeError, TypeError
  | KeyError, KeyError | IndexError, IndexError
  | AttributeError, AttributeError | NameError, NameError
  | UnboundLocalError, UnboundLocalError | RuntimeError, RuntimeError
  | UnicodeDecodeError, UnicodeDecodeError | RecursionError, RecursionError => true
  | _, _ => false
  end.

(** Modelled from the spec: [helpers.NotTwoHundredStatusError] is not under
    [src/]; the specification calls it a distinguished "non-200 status"
    failure that reaches the control loop, so it is an [Exception] that is
    neither an [OSError] nor an [http.client.HTTPException] (see
    [is_OSError] and [is_HTTPException] above). *)
Definition not_two_hundred (status : Z) : exn :=
  Exn NotTwoHundredStatusError ("Check availability status: " +:+ pretty status).

(** ** The notified-id set *)

(** Elements of a Python [set] that can come out of a JSON document.  [True]
    and [False] are the set elements [1] and [0]: they hash and compare
    equal in Python, so a set holds one of the two.  Which one it holds
    (and so whether it is written back as [true] or as [1]) is not
    modelled; the ids that [run] adds are strings. *)
Inductive hashable : Type :=
| HNone
| HInt (z : Z)
| HStr (s : string).

#[global] Instance hashable_eq_dec : EqDecision hashable.
Proof. solve_decision. Defined.

#[global] Instance hashable_countable : Countable hashable.
Proof.
  refine (inj_countable'
    (λ h, match h with
          | HNone => inl tt
          | HInt z => inr (inl z)
          | HStr s => inr (inr s)
          end)
    (λ x, match x with
          | inl _ => HNone
          | inr (inl z) => HInt z
          | inr (inr s) => HStr s
          end) _).
  by intros [].
Defined.

Definition of_hashable (h : hashable) : pyval :=
  match h with
  | HNone => PNone
  | HInt z => PInt z
  | HStr s => PStr s
  end.

(** ** Results of computations *)

Inductive outcome (A : Type) : Type :=
| Ret (a : A)
| Raise (e : exn)
| OutOfFuel.
Arguments Ret {A} a.
Arguments Raise {A} e.
Arguments OutOfFuel {A}.

(** ** Pure Python operations *)

Definition type_error {A} (msg : string) : outcome A := Raise (Exn TypeError msg).

Definition type_name (v : pyval) : string :=
  match v with
  | PNone => "NoneType"
  | PBool _ => "bool"
  | PInt _ => "int"
  | PStr _ => "str"
  | PList _ => "list"
  | PDict _ => "dict"
  end.

(** [bool(v)], as in [if items:] *)
Definition truthy (v : pyval) : bool :=
  match v with
  | PNone => false
  | PBool b => b
  | PInt z => negb (z =? 0)
  | PStr s => negb (String.eqb s "")
  | PList l => match l with [] => false | _ => true end
  | PDict d => match d with [] => false | _ => true end
  end.

Fixpoint chars (s : string) : list string :=
  match s with
  | EmptyString => []
  | String a s' => String a EmptyString :: chars s'
  end.

(** [iter(v)]: what a [for] loop or [set(v)] walks through. *)
Definition py_iter (v : pyval) : outcome (list pyval) :=
  match v with
  | PList l => Ret l
  | PDict d => Ret (map (λ kv, PStr (fst kv)) d)
  | PStr s => Ret (map PStr (chars s))
  | _ => type_error ("'" +:+ type_name v +:+ "' object is not iterable")
  end.

(** [len(v)] *)
Definition py_len (v : pyval) : outcome Z :=
  match v with
  | PList l => Ret (Z.of_nat (length l))
  | PDict d => Ret (Z.of_nat (length d))
  | PStr s => Ret (Z.of_nat (String.length s))
  | _ => type_error ("object of type '" +:+ type_name v +:+ "' has no len()")
  end.

Fixpoint assoc (k : string) (d : list (string * pyval)) : option pyval :=
  match d with
  | [] => None
  | (k', v) :: d' => if String.eqb k k' then Some v else assoc k d'
  end.

(** [v.get(k)] *)
Definition py_get (v : pyval) (k : string) : outcome pyval :=
  match v with
  | PDict d => Ret (default PNone (assoc k d))
  | _ => Raise (Exn AttributeError
                  ("'" +:+ type_name v +:+ "' object has no attribute 'get'"))
  end.

(** [v[k]] for a string [k] *)
Definition py_getitem (v : pyval) (k : string) : outcome pyval :=
  match v with
  | PDict d =>
      match assoc k d with
      | Some x => Ret x
      | None => Raise (Exn KeyError ("'" +:+ k +:+ "'"))
      end
  | PList _ => type_error "list indices must be integers or slices, not str"
  | PStr _ => type_error "string indices must be integers"
  | _ => type_error ("'" +:+ type_name v +:+ "' object is not subscriptable")
  end.

Fixpoint contains (k s : string) : bool :=
  String.prefix k s ||
  match s with
  | EmptyString => false
  | String _ s' => contains k s'
  end.

(** [k in v] for a string [k] *)
Definition py_in (k : string) (v : pyval) : outcome bool :=
  match v with
  | PDict d => Ret (bool_decide (is_Some (assoc k d)))
  | PList l => Ret (existsb (λ x, match x with PStr s => String.eqb s k | _ => false end) l)
  | PStr s => Ret (contains k s)
  | _ => type_error ("argument of type '" +:+ type_name v +:+ "' is not iterable")
  end.

(** [s.split(sep)] for a one-character separator: [cur] is the piece read
    so far, in reverse. *)
Fixpoint split_go (sep : Ascii.ascii) (cur : string) (s : string) : list string :=
  match s with
  | EmptyString => [String.rev cur]
  | String a s' =>
      if Ascii.eqb a sep then String.rev cur :: split_go sep EmptyString s'
      else split_go sep (String a cur) s'
  end.

Definition split (sep : Ascii.ascii) (s : string) : list string := split_go sep EmptyString s.

(** The character ['@'] (code 64). *)
Definition at_sign : Ascii.ascii := Ascii.ascii_of_nat 64.

Definition to_hashable (v : pyval) : outcome hashable :=
  match v with
  | PNone => Ret HNone
  | PBool b => Ret (HInt (if b then 1 else 0))
  | PInt z => Ret (HInt z)
  | PStr s => Ret (HStr s)
  | _ => type_error ("unhashable type: '" +:+ type_name v +:+ "'")
  end.

Fixpoint set_of_list (l : list pyval) : outcome (gset hashable) :=
  match l with
  | [] => Ret ∅
  | v :: l' =>
      match to_hashable v with
      | Ret h =>
          match set_of_list l' with
          | Ret s => Ret ({[h]} ∪ s)
          | Raise e => Raise e
          | OutOfFuel => OutOfFuel
          end
      | Raise e => Raise e
      | OutOfFuel => OutOfFuel
      end
  end.

(** [set(v)] *)
Definition py_set (v : pyval) : outcome (gset hashable) :=
  match py_iter v with
  | Ret l => set_of_list l
  | Raise e => Raise e
  | OutOfFuel => OutOfFuel
  end.

(** [list(s)] for a set [s]; Python fixes no order, the model takes the
    one of [elements]. *)
Definition py_list_of_set (s : gset hashable) : pyval :=
  PList (map of_hashable (elements s)).

(** ** The outside world *)

(** The contents of [notified_ids.json], by what lines 60 and 61 make of
    them: the document [json.load] decodes them to; text that [json.load]
    rejects with [JSONDecodeError]; or contents on which [open] or
    [json.load] raises [e], whatever [e] is ([UnicodeDecodeError] for bytes
    that are not UTF-8, [RecursionError] for a document nested too deep,
    [OSError] for a file that cannot be opened). *)
Inductive file_text : Type :=
| JsonText (v : pyval)
| Garbled (s : string)
| Unreadable (e : exn).

(** What [response.read().decode()] followed by [json.loads] makes of a
    response body. *)
Inductive body : Type :=
| BodyJson (v : pyval)
| BodyGarbled
| BodyUnreadable (e : exn).

Record response : Type := Response { status : Z; content : body }.

(** Everything the environment answers.  The [n]-th call of a primitive
    reads the [n]-th answer of its kind. *)
Record oracle : Type := Oracle {
  getenv : string → option string;       (* os.getenv *)
  connect_outcome : nat → option exn;    (* conn.connect(): None is success *)
  request_outcome : nat → option exn;    (* conn.request(...) *)
  response_outcome : nat → exn + response; (* conn.getresponse() *)
  clock : nat → Z;                       (* datetime.now() *)
  random_draw : nat → nat;               (* random.uniform *)
  py_repr : pyval → string;              (* str() of a list or a dict *)
  notify_outcome : nat → option exn      (* prowl.send_notification(...) *)
}.

Inductive level : Type := DEBUG | WARNING | ERROR.

(** What the client does to the outside world. *)
Inductive event : Type :=
| ELog (lv : level) (msg : string)
| EPrint (msg : string)
| EConnect
| EClose
| ERequest (method url : string)
| EGetResponse
| ESleep (us : Z)          (* time.sleep, the duration in microseconds *)
| ENotify (msg : string)   (* prowl.send_notification *)
| EWrite (v : pyval).      (* json.dump into notified_ids.json *)

(** The client object, its environment and the local variables of [run]. *)
Record state : Type := State {
  sock : bool;                         (* self.conn.sock is not None *)
  notified_file : option file_text;    (* notified_ids.json, if it exists *)
  trace : list event;
  connect_calls : nat;
  request_calls : nat;
  response_calls : nat;
  clock_calls : nat;
  random_calls : nat;
  notify_calls : nat;
  count : Z;                           (* run: count *)
  attempts : Z;                        (* run: attempts *)
  notified_ids : option (gset hashable) (* run: notified_ids, once bound *)
}.

Definition set_sock (b : bool) (s : state) : state :=
  State b (notified_file s) (trace s) (connect_calls s) (request_calls s)
    (response_calls s) (clock_calls s) (random_calls s) (notify_calls s) (count s) (attempts s)
    (notified_ids s).

Definition set_notified_file (f : option file_text) (s : state) : state :=
  State (sock s) f (trace s) (connect_calls s) (request_calls s)
    (response_calls s) (clock_calls s) (random_calls s) (notify_calls s) (count s) (attempts s)
    (notified_ids s).

Definition emit (e : event) (s : state) : state :=
  State (sock s) (notified_file s) (trace s ++ [e]) (connect_calls s)
    (request_calls s) (response_calls s) (clock_calls s) (random_calls s) (notify_calls s)
    (count s) (attempts s) (notified_ids s).

Definition tick_connect (s : state) : state :=
  State (sock s) (notified_file s) (trace s) (S (connect_calls s))
    (request_calls s) (response_calls s) (clock_calls s) (random_calls s) (notify_calls s)
    (count s) (attempts s) (notified_ids s).

Definition tick_request (s : state) : state :=
  State (sock s) (notified_file s) (trace s) (connect_calls s)
    (S (request_calls s)) (response_calls s) (clock_calls s) (random_calls s) (notify_calls s)
    (count s) (attempts s) (notified_ids s).

Definition tick_response (s : state) : state :=
  State (sock s) (notified_file s) (trace s) (connect_calls s)
    (request_calls s) (S (response_calls s)) (clock_calls s) (random_calls s) (notify_calls s)
    (count s) (attempts s) (notified_ids s).

Definition tick_clock (s : state) : state :=
  State (sock s) (notified_file s) (trace s) (connect_calls s)
    (request_calls s) (response_calls s) (S (clock_calls s)) (random_calls s) (notify_calls s)
    (count s) (attempts s) (notified_ids s).

Definition tick_random (s : state) : state :=
  State (sock s) (notified_file s) (trace s) (connect_calls s)
    (request_calls s) (response_calls s) (clock_calls s) (S (random_calls s)) (notify_calls s)
    (count s) (attempts s) (notified_ids s).

Definition set_count (n : Z) (s : state) : state :=
  State (sock s) (notified_file s) (trace s) (connect_calls s)
    (request_calls s) (response_calls s) (clock_calls s) (random_calls s) (notify_calls s)
    n (attempts s) (notified_ids s).

Definition set_attempts (n : Z) (s : state) : state :=
  State (sock s) (notified_file s) (trace s) (connect_calls s)
    (request_calls s) (response_calls s) (clock_calls s) (random_calls s) (notify_calls s)
    (count s) n (notified_ids s).

Definition set_notified_ids (l : gset hashable) (s : state) : state :=
  State (sock s) (notified_file s) (trace s) (connect_calls s)
    (request_calls s) (response_calls s) (clock_calls s) (random_calls s) (notify_calls s)
    (count s) (attempts s) (Some l).

Definition tick_notify (s : state) : state :=
  State (sock s) (notified_file s) (trace s) (connect_calls s)
    (request_calls s) (response_calls s) (clock_calls s) (random_calls s)
    (S (notify_calls s)) (count s) (attempts s) (notified_ids s).

(** ** The monad *)

Definition M (A : Type) : Type := state → outcome A * state.

#[global] Instance M_ret : MRet M := λ A a s, (Ret a, s).

#[global] Instance M_bind : MBind M := λ A B f m s,
  match m s with
  | (Ret a, s') => f a s'
  | (Raise e, s') => (Raise e, s')
  | (OutOfFuel, s') => (OutOfFuel, s')
  end.

Definition raise {A} (e : exn) : M A := λ s, (Raise e, s).

Definition out_of_fuel {A} : M A := λ s, (OutOfFuel, s).

(** A pure operation that may raise. *)
Definition lift {A} (r : outcome A) : M A := λ s, (r, s).

Definition get_state : M state := λ s, (Ret s, s).

Definition modify (f : state → state) : M unit := λ s, (Ret tt, f s).

(** [try: m  except ...: h e]; the handler [h] re-raises what no [except]
    clause matches. *)
Definition try_except {A} (m : M A) (h : exn → M A) : M A := λ s,
  match m s with
  | (Raise e, s') => h e s'
  | r => r
  end.

(** ** Primitives *)

Definition log (lv : level) (msg : string) : M unit := modify (emit (ELog lv msg)).

Definition time_sleep (us : Z) : M unit := modify (emit (ESleep us)).

Definition seconds (n : Z) : Z := n * 1000000.

Fixpoint for_each {A} (l : list A) (f : A → M unit) : M unit :=
  match l with
  | [] => mret tt
  | x :: l' => f x;; for_each l' f
  end.

(** ** Class attributes of [TwicketsClient] *)

Definition REQUIRED_ENV_VARIABLES : list string :=
  ["TWICKETS_API_KEY"; "TWICKETS_EMAIL"; "TWICKETS_PASSWORD";
   "TWICKETS_CLIENT_ID"; "TWICKETS_EVENT_ID"; "PROWL_API_KEY"].

Definition MIN_TIME : Z := 15.
Definition MAX_TIME : Z := 30.
Definition MAX_RETRIES : Z := 5.
Definition BASE_DELAY : Z := 60.

(** ** Naive datetimes

    A [datetime] without time zone is a number of microseconds on a
    calendar without gaps; [timedelta.total_seconds()] is kept exact, as a
    number of microseconds. *)

Definition hour_us : Z := 3600 * 1000000.
Definition day_us : Z := 24 * hour_us.

(** [now.hour] *)
Definition hour (t : Z) : Z := (t mod day_us) / hour_us.

(** [datetime(t.year, t.month, t.day, h, 0, 0)] *)
Definition at_hour (t h : Z) : Z := t - t mod day_us + h * hour_us.

(** Following the specification's words (the seconds until 08:00 the next
    applicable day): the time from [now] to the next 08:00:00, today's
    when [now] is before 08:00 and tomorrow's otherwise. *)
Definition until_next_eight (now : Z) : Z := (8 * hour_us - now) mod day_us.

(** ** [validate_auth_response] and the id of a listing (pure parts) *)

(** [all(key in response for key in keys)]; the four keys are walked in the
    order written (the result is the same in any order). *)
Fixpoint all_in (keys : list string) (v : pyval) : outcome bool :=
  match keys with
  | [] => Ret true
  | k :: keys' =>
      match py_in k v with
      | Ret true => all_in keys' v
      | r => r
      end
  end.

Definition required_keys : list string :=
  ["responseData"; "responseCode"; "description"; "clock"].

Definition validate_auth_response (response : pyval) : outcome pyval :=
  match all_in required_keys response with
  | Ret true => py_getitem response "responseData"
  | Ret false => Ret PNone
  | Raise e => Raise e
  | OutOfFuel => OutOfFuel
  end.

Section Client.

Context (W : oracle).

(** [str(v)] *)
Definition py_str (v : pyval) : string :=
  match v with
  | PStr s => s
  | PNone => "None"
  | PBool b => if b then "True" else "False"
  | PInt z => pretty z
  | _ => py_repr W v
  end.

(** [str(items['id']).split('@')[1]] (line 192) *)
Definition extract_id (items : pyval) : outcome string :=
  match py_getitem items "id" with
  | Ret v =>
      match split at_sign (py_str v) with
      | _ :: x :: _ => Ret x
      | _ => Raise (Exn IndexError "list index out of range")
      end
  | Raise e => Raise e
  | OutOfFuel => OutOfFuel
  end.

(** *** The connection *)

Definition conn_connect : M unit := λ s,
  let s1 := tick_connect (emit EConnect s) in
  match connect_outcome W (connect_calls s) with
  | None => (Ret tt, set_sock true s1)
  | Some e => (Raise e, s1)
  end.

Definition conn_close : M unit := modify (λ s, set_sock false (emit EClose s)).

(** [self.conn = http.client.HTTPSConnection(self.BASE_URL)] *)
Definition conn_renew : M unit := modify (set_sock false).

Definition send_request (method url : string) : M unit := λ s,
  let s1 := tick_request (emit (ERequest method url) s) in
  match request_outcome W (request_calls s) with
  | None => (Ret tt, s1)
  | Some e => (Raise e, s1)
  end.

(** [conn.request(...)]; [http.client] opens the socket first when there is
    none. *)
Definition conn_request (method url : string) : M unit :=
  s ← get_state;
  (if sock s then mret tt else conn_connect);;
  send_request method url.

Definition conn_getresponse : M response := λ s,
  let s1 := tick_response (emit EGetResponse s) in
  match response_outcome W (response_calls s) with
  | inr r => (Ret r, s1)
  | inl e => (Raise e, s1)
  end.

(** [json.loads(response.read().decode())] *)
Definition read_json (r : response) : M pyval :=
  match content r with
  | BodyJson v => mret v
  | BodyGarbled => raise (Exn JSONDecodeError "Expecting value")
  | BodyUnreadable e => raise e
  end.

(** Modelled from the spec: [helpers.ProwlNoticationsClient] is not under
    [src/]; the specification describes [send_notification] as a leaf that
    hands one text message to the push service and that fails
    silently-logged or raises on transport error.  The model records the
    message handed over, then returns or raises as the environment has
    it. *)
Definition send_notification (msg : string) : M unit := λ s,
  let s1 := tick_notify (emit (ENotify msg) s) in
  match notify_outcome W (notify_calls s) with
  | None => (Ret tt, s1)
  | Some e => (Raise e, s1)
  end.

Definition datetime_now : M Z := λ s, (Ret (clock W (clock_calls s)), tick_clock s).

(** [round(random.uniform(a, b))]: an integer from [a] to [b] *)
Definition round_uniform (a b : Z) : M Z := λ s,
  (Ret (a + Z.of_nat (random_draw W (random_calls s)) mod (b - a + 1)), tick_random s).

Definition env_or_None (key : string) : string := default "None" (getenv W key).

(** *** The ledger file *)

(** [with open(...) as f: json.load(f)] *)
Definition json_load (txt : file_text) : M pyval :=
  match txt with
  | JsonText v => mret v
  | Garbled _ => raise (Exn JSONDecodeError "Expecting value")
  | Unreadable e => raise e
  end.

Definition load_notified_ids : M (gset hashable) :=
  s ← get_state;
  match notified_file s with
  | Some txt =>
      try_except (v ← json_load txt; lift (py_set v))
        (λ e, if is_class (class_of e) JSONDecodeError then mret ∅ else raise e)
  | None => mret ∅
  end.

Definition save_notified_ids (ids : gset hashable) : M unit :=
  modify (λ s, set_notified_file (Some (JsonText (py_list_of_set ids)))
                 (emit (EWrite (py_list_of_set ids)) s)).

(** Reading the local variable [notified_ids] of [run]. *)
Definition read_notified_ids : M (gset hashable) :=
  s ← get_state;
  match notified_ids s with
  | Some ids => mret ids
  | None => raise (Exn UnboundLocalError
                     "local variable 'notified_ids' referenced before assignment")
  end.

(** *** [_ensure_connection] *)

(** The [while retries < self.MAX_RETRIES] loop, with
    [retries = MAX_RETRIES - remaining]. *)
Fixpoint ensure_loop (remaining : nat) : M unit :=
  match remaining with
  | O => log ERROR "Max retries reached. Could not establish a connection."
  | S remaining' =>
      let retries := MAX_RETRIES - Z.of_nat remaining in
      connected ← try_except
        (log DEBUG "Attempting connection to www.twickets.live";;
         conn_connect;;
         log DEBUG "Connection successful";;
         mret true)
        (λ e,
           if is_class (class_of e) gaierror then
             (* the f-string of the warning reads the global BASE_DELAY *)
             raise (Exn NameError "name 'BASE_DELAY' is not defined")
           else if is_HTTPException (class_of e) || is_OSError (class_of e) then
             log WARNING "Connection error";;
             conn_close;;
             conn_renew;;
             conn_connect;;
             mret false
           else raise e);
      if connected : bool then mret tt
      else
        (* retries += 1 *)
        time_sleep (seconds (BASE_DELAY * 2 ^ (retries + 1)));;
        ensure_loop remaining'
  end.

Definition _ensure_connection : M unit := ensure_loop (Z.to_nat MAX_RETRIES).

(** *** [check_env_variables] *)

Definition env_missing (key : string) : bool :=
  match getenv W key with
  | Some v => String.eqb v ""
  | None => true
  end.

Definition check_env_variables : M unit :=
  match List.filter env_missing REQUIRED_ENV_VARIABLES with
  | [] => modify (emit (EPrint "All required keys are populated"))
  | missing =>
      for_each missing
        (λ key, log ERROR ("Environment variable " +:+ key +:+ " is not set"));;
      raise (Exn RuntimeError "Missing required environment variables")
  end.

(** *** [authenticate] *)

Definition authenticate : M pyval :=
  _ensure_connection;;
  let url := "/services/auth/login?api_key=" +:+ env_or_None "TWICKETS_API_KEY" in
  log DEBUG "about to connect";;
  conn_request "POST" url;;
  response ← conn_getresponse;
  if status response =? 200 then
    result ← read_json response;
    token ← lift (validate_auth_response result);
    log DEBUG "Authenticated successfully";;
    mret token
  else
    log WARNING ("Authentication error status " +:+ pretty (status response));;
    mret PNone.

(** *** [check_event_availability] *)

(** Lines 133 to 152: what follows the call of [_ensure_connection]. *)
Definition availability_request : M pyval :=
  let url := "/services/g2/inventory/listings/" +:+ env_or_None "TWICKETS_EVENT_ID"
             +:+ "?api_key=" +:+ env_or_None "TWICKETS_API_KEY" in
  s ← get_state;
  if sock s then
    try_except
      (log DEBUG "Get response";;
       conn_request "GET" url;;
       response ← conn_getresponse;
       if status response =? 200 then
         result ← read_json response;
         code ← lift (py_get result "responseCode");
         clock_val ← lift (py_get result "clock");
         items ← lift (py_get result "responseData");
         n ← lift (py_len items);
         log DEBUG "Response code, clock, tickets";;
         mret items
       else raise (not_two_hundred (status response)))
      (λ e,
         if is_class (class_of e) ResponseNotReady then
           log DEBUG "http.client.ResponseNotReady exception";;
           mret (PList [])
         else if is_HTTPException (class_of e) then
           conn_close;;
           mret (PList [])
         else raise e)
  else mret (PList []).

Definition check_event_availability : M pyval :=
  s ← get_state;
  log DEBUG (if sock s then "Connection socket is none: False"
             else "Connection socket is none: True");;
  _ensure_connection;;
  availability_request.

(** *** [run] *)

(** Lines 192 to 197: the body of [for item in items].  The id is read from
    [items], not from [item]. *)
Definition notify_item (items : pyval) (item : pyval) : M unit :=
  id ← lift (extract_id items);
  ids ← read_notified_ids;
  if bool_decide (HStr id ∈ ids) then mret tt
  else
    let url := "https://www.twickets.live/app/block/" +:+ id +:+ ",1" in
    send_notification ("Check " +:+ url);;
    (* notified_ids.add(id) *)
    modify (set_notified_ids ({[HStr id]} ∪ ids));;
    save_notified_ids ({[HStr id]} ∪ ids).

(** Lines 190 to 197 *)
Definition process_items (items : pyval) : M unit :=
  if truthy items then
    l ← lift (py_iter items);
    for_each l (notify_item items)
  else mret tt.

Definition exit_error_message : string := "Exiting after five failed login attempts".

Definition authentication_failed : exn :=
  Exn RuntimeError "Authentication failed for some reason".

(** Lines 200 to 217: the [except NotTwoHundredStatusError] clause. *)
Definition on_not_two_hundred (auth_time_delay : Z) : M unit :=
  log DEBUG "Check availability status. Attempt";;
  s ← get_state;
  (if MAX_RETRIES <? attempts s then
     (* give up *)
     ids ← read_notified_ids;
     save_notified_ids ids;;
     send_notification exit_error_message;;
     (* sys.exit(exit_error_message) *)
     raise (Exn SystemExit exit_error_message)
   else mret tt);;
  let SLEEP_INTERVAL := auth_time_delay * 2 ^ attempts s in
  log DEBUG "Pausing due to 403 error";;
  conn_close;;
  time_sleep (seconds SLEEP_INTERVAL);;
  modify (λ s, set_attempts (attempts s + 1) s);;
  token ← authenticate;
  match token with
  | PNone => raise authentication_failed
  | _ => mret tt
  end.

(** Lines 183 to 199: the [try] block of one cycle. *)
Definition poll_cycle (time_delay : Z) : M unit :=
  log DEBUG "Check cycle";;
  items ← check_event_availability;
  (* backoff = 0 *)
  modify (set_attempts 0);;
  modify (λ s, set_count (count s + 1) s);;
  process_items items;;
  let SLEEP_INTERVAL := time_delay + 0 in
  time_sleep (seconds SLEEP_INTERVAL).

Definition quiet_window (now : Z) : bool := (22 <=? hour now) || (hour now <? 8).

(** Lines 169 to 217: one pass through the body of [while True]. *)
Definition iteration : M unit :=
  now ← datetime_now;
  if quiet_window now then
    let tomorrow := now + day_us in
    let wake_time := at_hour tomorrow 8 in
    let sleep_duration := wake_time - now in
    log DEBUG "Sleeping until wake time";;
    time_sleep sleep_duration;;
    modify (set_count 1)
  else
    time_delay ← round_uniform MIN_TIME MAX_TIME;
    auth_time_delay ← round_uniform 180 360;
    try_except (poll_cycle time_delay)
      (λ e,
         if is_class (class_of e) NotTwoHundredStatusError
         then on_not_two_hundred auth_time_delay
         else raise e).

(** [while True]: [fuel] bounds the number of passes the model follows. *)
Fixpoint loop (fuel : nat) : M unit :=
  match fuel with
  | O => out_of_fuel
  | S fuel' => iteration;; loop fuel'
  end.

(** Lines 157 to 217: the [try] block of [run]. *)
Definition run_body (fuel : nat) : M unit :=
  log DEBUG "Checking env variables";;
  modify (set_count 1);;
  ids ← load_notified_ids;
  modify (set_notified_ids ids);;
  check_env_variables;;
  log DEBUG "Authenticating";;
  token ← authenticate;
  match token with
  | PNone => raise authentication_failed
  | _ =>
      log DEBUG "starting ticket check";;
      modify (set_attempts 0);;
      loop fuel
  end.

(** Lines 218 to 227: the two [except] clauses of [run]. *)
Definition run_handlers (e : exn) : M unit :=
  if is_class (class_of e) KeyboardInterrupt then
    log DEBUG "User interrupted connection with ctrl-C";;
    conn_close;;
    ids ← read_notified_ids;
    save_notified_ids ids
  else if is_Exception (class_of e) then
    ids ← read_notified_ids;
    save_notified_ids ids;;
    log ERROR "Caught exception";;
    s ← get_state;
    send_notification ("Cycle " +:+ pretty (count s) +:+ " Caught exception " +:+ message e)
  else raise e.

Definition run (fuel : nat) : M unit := try_except (run_body fuel) run_handlers.

End Client.

(** The exit status of the process when [client.run()] ends with [r]: [0]
    when it returns; [1] when an exception leaves it, [SystemExit] raised by
    [sys.exit] with a message included. *)
Definition exit_status (r : outcome unit) : option Z :=
  match r with
  | Ret _ => Some 0
  | Raise _ => Some 1
  | OutOfFuel => None
  end.

(** The client after [__init__], with [notified_ids.json] holding [f]. *)
Definition initial (f : option file_text) : state :=
  State false f [] 0 0 0 0 0 0 0 0 None.

(** The messages handed to the push service, oldest first. *)
Definition notifications (t : list event) : list string :=
  omap (λ e, match e with ENotify m => Some m | _ => None end) t.

(** The durations slept, oldest first. *)
Definition sleeps (t : list event) : list Z :=
  omap (λ e, match e with ESleep us => Some us | _ => None end) t.


(** ** What the client's methods leave alone

    [frame s s']: from [s] to [s'] the local variables of [run] and the
    ledger file are unchanged, the trace has only grown and no answer to
    [connect] has been given back. *)
Definition frame (s s' : state) : Prop :=
  count s' = count s ∧ attempts s' = attempts s ∧
  notified_ids s' = notified_ids s ∧ notified_file s' = notified_file s ∧
  (∃ t, trace s' = trace s ++ t) ∧
  (connect_calls s ≤ connect_calls s')%nat.

Definition framed {A} (m : M A) : Prop := ∀ s, frame s (snd (m s)).

(** ** Scenarios *)

(** Every required variable is set. *)
Definition env_all (key : string) : option string := Some ("<" +:+ key +:+ ">").

Definition login_ok : response :=
  Response 200
    (BodyJson (PDict [("responseData", PStr "session-token");
                      ("responseCode", PInt 100);
                      ("description", PNone);
                      ("clock", PInt 1730000000)])).

Definition listing (id : string) : pyval :=
  PDict [("id", PStr id); ("amount", PInt 1)].

Definition listings_response (items : pyval) : response :=
  Response 200
    (BodyJson (PDict [("responseData", items);
                      ("responseCode", PInt 100);
                      ("description", PNone);
                      ("clock", PInt 1730000000)])).

(** 12:00:00, 23:00:00 and 03:00:00 on day 739000. *)
Definition noon : Z := 739000 * day_us + 12 * hour_us.
Definition eleven_pm : Z := 739000 * day_us + 23 * hour_us.
Definition three_am : Z := 739000 * day_us + 3 * hour_us.

(** A quiet network at noon: every connect and request succeeds and the
    [n]-th response is [responses n]. *)
Definition daytime (responses : nat → exn + response) : oracle :=
  Oracle env_all (λ _, None) (λ _, None) responses (λ _, noon)
    (λ n, (37 * n)%nat) (λ _, "") (λ _, None).

(** The login succeeds, then the first poll lists two new tickets. *)
Definition W_two_listings : oracle :=
  daytime (λ n, match n with
                | O => inr login_ok
                | _ => inr (listings_response (PList [listing "evt@A"; listing "evt@B"]))
                end).

(** Every poll is answered 403 and every login succeeds. *)
Definition W_forbidden : oracle :=
  daytime (λ n, if Nat.even n then inr login_ok else inr (Response 403 BodyGarbled)).

(** Inside the loop: every poll is answered 403, every login succeeds. *)
Definition W_expired : oracle :=
  daytime (λ n, if Nat.even n then inr (Response 403 BodyGarbled) else inr login_ok).



(** The poll answers with one listing record instead of a list. *)
Definition W_single_record : oracle :=
  daytime (λ _, inr (listings_response (listing "evt@A"))).

(** The poll finds nothing. *)
Definition W_no_listings : oracle :=
  daytime (λ _, inr (listings_response (PList []))).

(** The login succeeds. *)
Definition W_login : oracle := daytime (λ _, inr login_ok).


(** The server has closed the kept-alive connection: [getresponse] raises
    [ConnectionResetError]. *)
Definition connection_reset : exn :=
  Exn ConnectionResetError "[Errno 104] Connection reset by peer".

Definition W_reset : oracle := daytime (λ _, inl connection_reset).

Definition response_not_ready : exn := Exn ResponseNotReady "Request-sent".

Definition W_not_ready : oracle := daytime (λ _, inl response_not_ready).

(** The name of the host does not resolve. *)
Definition W_dns_down : oracle :=
  Oracle env_all (λ _, Some (Exn gaierror "[Errno -2] Name or service not known"))
    (λ _, None) (λ _, inr login_ok) (λ _, noon) (λ _, O) (λ _, "") (λ _, None).

(** The host refuses every connection. *)
Definition W_refused : oracle :=
  Oracle env_all (λ _, Some (Exn OSError "[Errno 111] Connection refused"))
    (λ _, None) (λ _, inr login_ok) (λ _, noon) (λ _, O) (λ _, "") (λ _, None).

(** The first connection is accepted, every later one is refused. *)
Definition W_refused_later : oracle :=
  Oracle env_all
    (λ n, match n with
          | O => None
          | _ => Some (Exn OSError "[Errno 111] Connection refused")
          end)
    (λ _, None) (λ _, inr login_ok) (λ _, noon) (λ _, O) (λ _, EmptyString) (λ _, None).

(** Every other connection attempt is refused. *)
Definition W_flaky : oracle :=
  Oracle env_all
    (λ n, if Nat.even n then Some (Exn OSError "[Errno 111] Connection refused") else None)
    (λ _, None) (λ _, inr login_ok) (λ _, noon) (λ _, O) (λ _, "") (λ _, None).

(** It is 03:00. *)
Definition W_before_dawn : oracle :=
  Oracle env_all (λ _, None) (λ _, None) (λ _, inr login_ok) (λ _, three_am)
    (λ _, O) (λ _, EmptyString) (λ _, None).

(** It is 23:00. *)
Definition W_night : oracle :=
  Oracle env_all (λ _, None) (λ _, None) (λ _, inr login_ok) (λ _, eleven_pm)
    (λ _, O) (λ _, "") (λ _, None).

(** The client inside the main loop, with ledger [ids] and [n] failures. *)
Definition in_loop (ids : gset hashable) (n : Z) : state :=
  set_attempts n (set_count 1 (set_notified_ids ids (set_sock true (initial None)))).

(** ** Consecutive failures of the poll *)

(** The state in which the pass entered in [s] starts its poll: the clock
    has been read, the two delays drawn and the cycle logged. *)
Definition poll_start (s : state) : state :=
  emit (ELog DEBUG "Check cycle") (tick_random (tick_random (tick_clock s))).

(** The two delays drawn in the pass entered in [s] (lines 180 and 181). *)
Definition short_delay (W : oracle) (s : state) : Z :=
  MIN_TIME + Z.of_nat (random_draw W (random_calls s)) mod (MAX_TIME - MIN_TIME + 1).


(** [streak W n s]: the loop is at the top of a pass, in [s], with exactly
    [n] consecutive non-200 failures of the poll behind it.  The count
    starts where the loop is entered (line 167) and after every poll cycle
    that completed; a pass in the quiet window does not poll and leaves
    the count as it is. *)
Inductive streak (W : oracle) : nat → state → Prop :=
| streak_entry s : streak W 0 (set_attempts 0 s)
| streak_success s s' :
    quiet_window (clock W (clock_calls s)) = false →
    poll_cycle W (short_delay W s) (tick_random (tick_random (tick_clock s)))
      = (Ret tt, s') →
    streak W 0 s'
| streak_failure n s e s1 s' :
    streak W n s →
    quiet_window (clock W (clock_calls s)) = false →
    check_event_availability W (poll_start s) = (Raise e, s1) →
    class_of e = NotTwoHundredStatusError →
    iteration W s = (Ret tt, s') →
    streak W (S n) s'
| streak_quiet n s s' :
    streak W n s →
    quiet_window (clock W (clock_calls s)) = true →
    iteration W s = (Ret tt, s') →
    streak W n s'.

(** ** Further notions and scenarios *)

(** [sep not in s] *)
Fixpoint no_sep (sep : Ascii.ascii) (s : string) : bool :=
  match s with
  | EmptyString => true
  | String c s' => negb (Ascii.eqb c sep) && no_sep sep s'
  end.

(** From [s] to [s'] the trace has only grown, [attempts] has not become
    negative and the ledger, once bound, has lost no id. *)
Definition advances (s s' : state) : Prop :=
  (∃ t, trace s' = trace s ++ t) ∧
  (0 ≤ attempts s → 0 ≤ attempts s') ∧
  (∀ ids, notified_ids s = Some ids →
     ∃ ids', notified_ids s' = Some ids' ∧ ids ⊆ ids').

Definition advancing {A} (m : M A) : Prop := ∀ s, advances s (snd (m s)).

(** A computation that ends, if at all, by raising. *)
Definition never_returns {A} (m : M A) : Prop := ∀ s a s', m s ≠ (Ret a, s').

(** The first [k] sleeps of [_ensure_connection], in microseconds. *)
Definition retry_schedule (k : nat) : list Z :=
  map (λ i, seconds (BASE_DELAY * 2 ^ Z.of_nat i)) (seq 1 k).

(** The error logged for a missing variable. *)
Definition not_set (key : string) : event :=
  ELog ERROR ("Environment variable " +:+ key +:+ " is not set").

(** [TWICKETS_EVENT_ID] is unset and [PROWL_API_KEY] is empty. *)
Definition env_incomplete (key : string) : option string :=
  if String.eqb key "TWICKETS_EVENT_ID" then None
  else if String.eqb key "PROWL_API_KEY" then Some ""
  else Some "set".

Definition W_incomplete : oracle :=
  Oracle env_incomplete (λ _, None) (λ _, None) (λ _, inr login_ok) (λ _, noon)
    (λ _, O) (λ _, "") (λ _, None).

(** The same environment, and the push service cannot be reached. *)
Definition push_unreachable : exn := Exn OSError "[Errno 101] Network is unreachable".

Definition W_incomplete_unreachable : oracle :=
  Oracle env_incomplete (λ _, None) (λ _, None) (λ _, inr login_ok) (λ _, noon)
    (λ _, O) (λ _, EmptyString) (λ _, Some push_unreachable).

(** The login is refused with status 401. *)
Definition W_login_refused : oracle := daytime (λ _, inr (Response 401 BodyGarbled)).

(** The path of the listings request (line 133). *)
Definition listings_url (W : oracle) : string :=
  "/services/g2/inventory/listings/" +:+ env_or_None W "TWICKETS_EVENT_ID"
  +:+ "?api_key=" +:+ env_or_None W "TWICKETS_API_KEY".

(** The page of a listing (line 194). *)
Definition block_url (id : string) : string :=
  "https://www.twickets.live/app/block/" +:+ id +:+ ",1".

(** The ledger file holds what the local variable [notified_ids] holds. *)
Definition dumped (s : state) : Prop :=
  ∃ ids, notified_ids s = Some ids ∧
    notified_file s = Some (JsonText (py_list_of_set ids)).

(** * Proofs *)

Ltac unfold_m :=
  unfold log, time_sleep, send_notification in *;
  unfold mbind, M_bind, mret, M_ret, raise, lift, modify, get_state, try_except in *.

(** ** The frame of the client's methods *)

(** ** Binds that return, and computations that never do *)

Lemma bind_ret_inv {A B} (m : M A) (k : A → M B) s b s' :
  (m ≫= k) s = (Ret b, s') → ∃ a s1, m s = (Ret a, s1) ∧ k a s1 = (Ret b, s').
Proof.
  unfold_m. destruct (m s) as [[a|e|] s1]; [|done..]. intros H. by exists a, s1.
Qed.

Lemma never_returns_bind {A B} (m : M A) (k : A → M B) :
  (∀ a, never_returns (k a)) → never_returns (m ≫= k).
Proof.
  intros Hk s b s' H. unfold_m. destruct (m s) as [[a|e|] s1]; [|done..].
  by apply Hk in H.
Qed.

Lemma never_returns_raise {A} e : never_returns (@raise A e).
Proof. by intros s a s'. Qed.

Lemma never_returns_give_up W :
  never_returns
    (ids ← read_notified_ids;
     save_notified_ids ids;;
     send_notification W exit_error_message;;
     raise (Exn SystemExit exit_error_message) : M unit).
Proof. repeat (apply never_returns_bind; intros ?). apply never_returns_raise. Qed.

Lemma frame_refl s : frame s s.
Proof. repeat split; try done. exists []. by rewrite app_nil_r. Qed.

Lemma frame_trans s1 s2 s3 : frame s1 s2 → frame s2 s3 → frame s1 s3.
Proof.
  intros (Hc & Ha & Hn & Hf & [t Ht] & Hk) (Hc' & Ha' & Hn' & Hf' & [t' Ht'] & Hk').
  repeat split; try congruence; [|lia].
  exists (t ++ t'). by rewrite Ht', Ht, app_assoc.
Qed.

Lemma frame_emit e s : frame s (emit e s).
Proof. repeat split; try done. by exists [e]. Qed.

Lemma framed_ret {A} (a : A) : framed (mret a).
Proof. intros s. apply frame_refl. Qed.

Lemma framed_raise {A} e : framed (@raise A e).
Proof. intros s. apply frame_refl. Qed.

Lemma framed_lift {A} (r : outcome A) : framed (lift r).
Proof. intros s. apply frame_refl. Qed.

Lemma framed_bind {A B} (m : M A) (f : A → M B) :
  framed m → (∀ a, framed (f a)) → framed (m ≫= f).
Proof.
  intros Hm Hf s. unfold mbind, M_bind. specialize (Hm s).
  destruct (m s) as [[a|e|] s1]; cbn in *; [|done..].
  eapply frame_trans; [exact Hm | apply Hf].
Qed.

Lemma framed_try {A} (m : M A) (h : exn → M A) :
  framed m → (∀ e, framed (h e)) → framed (try_except m h).
Proof.
  intros Hm Hh s. unfold try_except. specialize (Hm s).
  destruct (m s) as [[a|e|] s1]; cbn in *; [done| |done].
  eapply frame_trans; [exact Hm | apply Hh].
Qed.

Lemma framed_get_state : framed get_state.
Proof. intros s. apply frame_refl. Qed.

Lemma framed_log lv msg : framed (log lv msg).
Proof. intros s. apply frame_emit. Qed.

Lemma framed_sleep us : framed (time_sleep us).
Proof. intros s. apply frame_emit. Qed.

Lemma framed_connect W : framed (conn_connect W).
Proof.
  intros s. unfold conn_connect.
  destruct (connect_outcome W (connect_calls s)); cbn;
    (repeat split; try done; try (cbn; lia); by exists [EConnect]).
Qed.

Lemma framed_close : framed conn_close.
Proof. intros s. repeat split; try done. by exists [EClose]. Qed.

Lemma framed_renew : framed conn_renew.
Proof. intros s. repeat split; try done. exists []. by rewrite app_nil_r. Qed.

Lemma framed_send_request W m u : framed (send_request W m u).
Proof.
  intros s. unfold send_request.
  destruct (request_outcome W (request_calls s)); cbn;
    (repeat split; try done; by exists [ERequest m u]).
Qed.

Lemma framed_getresponse W : framed (conn_getresponse W).
Proof.
  intros s. unfold conn_getresponse.
  destruct (response_outcome W (response_calls s)); cbn;
    (repeat split; try done; by exists [EGetResponse]).
Qed.

Lemma framed_read_json r : framed (read_json r).
Proof. unfold read_json. destruct (content r); [apply framed_ret | apply framed_raise..]. Qed.

Create HintDb framed.
#[local] Hint Resolve framed_ret framed_raise framed_lift framed_get_state framed_log
  framed_sleep framed_connect framed_close framed_renew framed_send_request
  framed_getresponse framed_read_json : framed.

Ltac framed_step :=
  first [ apply framed_bind; [|intros ?] | apply framed_try; [|intros ?]
        | match goal with |- framed (if ?b then _ else _) => destruct b end
        | match goal with |- framed (match ?x with _ => _ end) => destruct x end
        | solve [auto with framed] ].

Lemma framed_conn_request W m u : framed (conn_request W m u).
Proof. unfold conn_request. repeat framed_step. Qed.
#[local] Hint Resolve framed_conn_request : framed.

Lemma framed_ensure_loop W n : framed (ensure_loop W n).
Proof. induction n as [|n IH]; cbn [ensure_loop]; repeat framed_step. Qed.

Lemma framed_ensure_connection W : framed (_ensure_connection W).
Proof. apply framed_ensure_loop. Qed.
#[local] Hint Resolve framed_ensure_connection : framed.

Lemma framed_authenticate W : framed (authenticate W).
Proof. unfold authenticate. repeat framed_step. Qed.

Lemma framed_availability_request W : framed (availability_request W).
Proof. unfold availability_request. repeat framed_step. Qed.
#[local] Hint Resolve framed_authenticate framed_availability_request : framed.

Lemma framed_check_event_availability W : framed (check_event_availability W).
Proof. unfold check_event_availability. repeat framed_step. Qed.


(** ** The ledger file *)

Lemma set_of_list_hashables (l : list hashable) :
  set_of_list (map of_hashable l) = Ret (list_to_set l).
Proof.
  induction l as [|h l IH]; [reflexivity|].
  cbn [map set_of_list]. rewrite IH. by destruct h.
Qed.

Lemma py_set_list_of_set (ids : gset hashable) : py_set (py_list_of_set ids) = Ret ids.
Proof.
  unfold py_set, py_list_of_set, py_iter. rewrite set_of_list_hashables.
  by rewrite list_to_set_elements_L.
Qed.

(** Any ledger that [save_notified_ids] writes is read back unchanged. *)
Lemma load_after_save (ids : gset hashable) (s : state) :
  load_notified_ids (snd (save_notified_ids ids s))
    = (Ret ids, snd (save_notified_ids ids s)).
Proof.
  unfold load_notified_ids, save_notified_ids. unfold_m. unfold json_load.
  cbn -[py_set py_list_of_set]. by rewrite py_set_list_of_set.
Qed.

(** C5: for every set [x] of strings, [save_notified_ids(x)] returns and
    [load_notified_ids] on the file it wrote returns a set equal to [x]
    (whatever order the array was written in), leaving the file as it is. *)
Theorem save_load_roundtrip (x : gset string) (s : state) :
  let ids : gset hashable := set_map HStr x in
  let saved := snd (save_notified_ids ids s) in
  fst (save_notified_ids ids s) = Ret tt ∧
  load_notified_ids saved = (Ret ids, saved).
Proof. intros ids saved. split; [reflexivity | apply load_after_save]. Qed.

(** The order of the array in the file, and repetitions in it, do not
    matter: any array with the elements of [x] is read as [x]. *)
Lemma load_any_order (x : gset string) (l : list string) (s : state) :
  (∀ a, a ∈ l ↔ a ∈ x) →
  load_notified_ids (set_notified_file (Some (JsonText (PList (map PStr l)))) s)
    = (Ret (set_map HStr x), set_notified_file (Some (JsonText (PList (map PStr l)))) s).
Proof.
  intros Hl. unfold load_notified_ids. unfold_m. unfold json_load.
  cbn -[py_set]. unfold py_set, py_iter.
  replace (map PStr l) with (map of_hashable (map HStr l))
    by (rewrite map_map; reflexivity).
  rewrite set_of_list_hashables. do 2 f_equal.
  apply set_eq. intros h. rewrite elem_of_list_to_set, elem_of_map.
  split.
  - intros Hin. apply list_elem_of_In, in_map_iff in Hin as (a & <- & Ha).
    exists a. split; [done|]. by apply Hl, list_elem_of_In.
  - intros (a & -> & Ha). apply list_elem_of_In, in_map_iff.
    exists a. split; [done|]. by apply list_elem_of_In, Hl.
Qed.

(** Contents that are not valid JSON because they are not text: on bytes
    that are not UTF-8 the read inside [json.load] raises
    [UnicodeDecodeError], a [ValueError] that is not a [JSONDecodeError],
    so the [except] clause of line 62 lets it through. *)
Lemma load_undecodable_raises :
  let e := Exn UnicodeDecodeError
             "'utf-8' codec can't decode byte 0xff in position 0: invalid start byte" in
  fst (load_notified_ids (initial (Some (Unreadable e)))) = Raise e.
Proof. reflexivity. Qed.

(** C6, amended: [load_notified_ids] returns the empty set, raises nothing
    and changes nothing when [notified_ids.json] does not exist, and when
    it exists and reading it fails with [JSONDecodeError] (text that
    [json.load] rejects). *)
Theorem load_absent_or_garbled (s : state) :
  notified_file s = None ∨
  (∃ g, notified_file s = Some (Garbled g)) ∨
  (∃ e, notified_file s = Some (Unreadable e) ∧ class_of e = JSONDecodeError) →
  load_notified_ids s = (Ret ∅, s).
Proof.
  unfold load_notified_ids, json_load. unfold_m.
  intros [-> | [[g ->] | (e & -> & He)]]; [reflexivity..|].
  cbn. by rewrite He.
Qed.

Lemma load_absent_or_garbled_witness :
  load_notified_ids (initial None) = (Ret ∅, initial None) ∧
  load_notified_ids (initial (Some (Garbled "[1, 2")))
    = (Ret ∅, initial (Some (Garbled "[1, 2"))).
Proof.
  split.
  - apply (load_absent_or_garbled (initial None)). by left.
  - apply (load_absent_or_garbled (initial (Some (Garbled "[1, 2")))).
    right. left. by eexists.
Defined.

(** Valid JSON of another shape is not covered by the [except] clause: a
    number in the file makes [set(...)] raise [TypeError]. *)
Example load_number_raises :
  fst (load_notified_ids (initial (Some (JsonText (PInt 5)))))
    = Raise (Exn TypeError "'int' object is not iterable").
Proof. reflexivity. Qed.

(** ** Listings of one poll cycle *)

Lemma notify_item_known W items item s ids :
  notified_ids s = Some ids →
  (∀ id, extract_id W items = Ret id → HStr id ∈ ids) →
  ∃ r, notify_item W items item s = (r, s).
Proof.
  intros Hids Hknown. unfold notify_item, read_notified_ids. unfold_m.
  destruct (extract_id W items) as [id|e|] eqn:Hid; [|by eexists..].
  rewrite Hids. rewrite bool_decide_eq_true_2 by (by apply Hknown). by eexists.
Qed.

Lemma for_each_known W items l s ids :
  notified_ids s = Some ids →
  (∀ id, extract_id W items = Ret id → HStr id ∈ ids) →
  ∃ r, for_each l (notify_item W items) s = (r, s).
Proof.
  intros Hids Hknown. induction l as [|item l [r IH]]; [by eexists|].
  cbn [for_each]. unfold_m.
  destruct (notify_item_known W items item s ids Hids Hknown) as [r' ->].
  destruct r'; [rewrite IH|..]; by eexists.
Qed.

Lemma process_items_known W items s ids :
  notified_ids s = Some ids →
  (∀ id, extract_id W items = Ret id → HStr id ∈ ids) →
  ∃ r, process_items W items s = (r, s).
Proof.
  intros Hids Hknown. unfold process_items.
  destruct (truthy items); [|by eexists]. unfold_m.
  destruct (py_iter items) as [l|e|]; [|by eexists..].
  by apply (for_each_known W items l s ids).
Qed.

(** When the id that line 192 extracts from the whole answer [items] is
    already in [notified_ids] (or no id can be extracted), the cycle sends
    nothing and leaves [notified_ids] and [notified_ids.json] as they
    were.  This covers an answer that is one record, not a list of
    records. *)
Lemma known_record_is_silent W time_delay s items s1 ids :
  check_event_availability W (emit (ELog DEBUG "Check cycle") s) = (Ret items, s1) →
  notified_ids s1 = Some ids →
  (∀ id, extract_id W items = Ret id → HStr id ∈ ids) →
  ∃ r s2, poll_cycle W time_delay s = (r, s2) ∧
    notified_ids s2 = Some ids ∧
    notified_file s2 = notified_file s1 ∧
    (trace s2 = trace s1 ∨ trace s2 = trace s1 ++ [ESleep (seconds (time_delay + 0))]).
Proof.
  intros Hpoll Hids Hknown. unfold poll_cycle. unfold_m.
  cbn -[check_event_availability process_items]. rewrite Hpoll.
  cbn -[check_event_availability process_items].
  set (s1' := set_count _ _).
  destruct (process_items_known W items s1' ids Hids Hknown) as [r ->].
  destruct r; eexists _, _; (split; [reflexivity|]); cbn; auto.
Qed.

(** A non-empty list of listings makes line 192 raise [TypeError] before
    anything is sent or recorded. *)
Lemma process_items_list_raises W x l s :
  process_items W (PList (x :: l)) s =
    (Raise (Exn TypeError "list indices must be integers or slices, not str"), s).
Proof. reflexivity. Qed.

(** C1 (fails on the code): with an empty ledger, a poll that returns the
    two listings [evt@A] and [evt@B] sends no notification for either of
    them and records neither id; [items['id']] raises [TypeError], which
    ends [run] through its outermost handler with one notification, the
    report of the exception. *)
Theorem two_new_listings_crash :
  let r := run W_two_listings 1 (initial None) in
  fst r = Ret tt ∧
  notifications (trace (snd r))
    = ["Cycle 2 Caught exception list indices must be integers or slices, not str"] ∧
  notified_ids (snd r) = Some ∅ ∧
  notified_file (snd r) = Some (JsonText (PList [])).
Proof. vm_compute. repeat split. Qed.


(** ** [_ensure_connection] *)

(** When [_ensure_connection] returns, the socket is open: it returns only
    after a [connect] that succeeded. *)
Lemma ensure_loop_connected W n s s' :
  ensure_loop W n s = (Ret tt, s') → sock s = true ∨ n ≠ O → sock s' = true.
Proof.
  revert s s'. induction n as [|n IH]; intros s s' H Hs.
  - destruct Hs as [Hs|]; [|done]. cbn in H. by inversion H; subst.
  - cbn [ensure_loop] in H. unfold_m. unfold conn_connect, conn_close, conn_renew in H.
    unfold_m. cbn -[ensure_loop Z.pow Z.mul Z.of_nat Z.sub Z.add] in H.
    destruct (connect_outcome W (connect_calls s)) as [e|].
    + destruct (is_class (class_of e) gaierror); [done|].
      destruct (is_HTTPException (class_of e) || is_OSError (class_of e)); [|done].
      cbn -[ensure_loop Z.pow Z.mul Z.of_nat Z.sub Z.add] in H.
      destruct (connect_outcome W (S (connect_calls s))) as [e'|]; [done|].
      cbn -[ensure_loop Z.pow Z.mul Z.of_nat Z.sub Z.add] in H.
      eapply IH; [exact H | by left].
    + cbn in H. by inversion H; subst.
Qed.

Lemma ensure_connection_connected W s s' :
  _ensure_connection W s = (Ret tt, s') → sock s' = true.
Proof. intros H. eapply ensure_loop_connected; [exact H | by right]. Qed.

(** A DNS failure of the first attempt ends [_ensure_connection] with
    [NameError]: nothing is retried and nothing is slept. *)
Lemma ensure_connection_gaierror W s e :
  connect_outcome W (connect_calls s) = Some e →
  class_of e = gaierror →
  _ensure_connection W s =
    (Raise (Exn NameError "name 'BASE_DELAY' is not defined"),
     tick_connect (emit EConnect
       (emit (ELog DEBUG "Attempting connection to www.twickets.live") s))).
Proof.
  intros Hc He. unfold _ensure_connection. change (Z.to_nat MAX_RETRIES) with 5%nat.
  cbn [ensure_loop]. unfold_m. unfold conn_connect. cbn -[ensure_loop].
  rewrite Hc. cbn -[ensure_loop]. by rewrite He.
Qed.

(** A transport failure of the first attempt followed by a failure of the
    [connect] in the handler leaves [_ensure_connection] with the second
    exception. *)
Lemma ensure_connection_refused_twice W s e e' :
  connect_outcome W (connect_calls s) = Some e →
  is_class (class_of e) gaierror = false →
  is_HTTPException (class_of e) || is_OSError (class_of e) = true →
  connect_outcome W (S (connect_calls s)) = Some e' →
  fst (_ensure_connection W s) = Raise e' ∧
  sleeps (trace (snd (_ensure_connection W s))) = sleeps (trace s).
Proof.
  intros Hc Hg Ht Hc'. unfold _ensure_connection. change (Z.to_nat MAX_RETRIES) with 5%nat.
  cbn [ensure_loop]. unfold_m. unfold conn_connect, conn_close, conn_renew. unfold_m.
  cbn -[ensure_loop]. rewrite Hc. cbn -[ensure_loop]. rewrite Hg, Ht.
  cbn -[ensure_loop]. rewrite Hc'. cbn -[ensure_loop]. split; [done|].
  unfold sleeps. rewrite !omap_app. cbn. by rewrite !app_nil_r.
Qed.

(** C8 (fails on the code): when every connect attempt fails,
    [_ensure_connection] neither retries nor sleeps nor returns.  With the
    DNS down it raises [NameError] after one attempt (the warning reads a
    global [BASE_DELAY]); with every connection refused it raises the
    [OSError] of the [connect] inside its own handler. *)
Theorem ensure_connection_all_attempts_fail :
  let dns := _ensure_connection W_dns_down (initial None) in
  let refused := _ensure_connection W_refused (initial None) in
  fst dns = Raise (Exn NameError "name 'BASE_DELAY' is not defined") ∧
  trace (snd dns)
    = [ELog DEBUG "Attempting connection to www.twickets.live"; EConnect] ∧
  fst refused = Raise (Exn OSError "[Errno 111] Connection refused") ∧
  trace (snd refused)
    = [ELog DEBUG "Attempting connection to www.twickets.live"; EConnect;
       ELog WARNING "Connection error"; EClose; EConnect].
Proof. vm_compute. repeat split. Qed.

(** When every second attempt succeeds the loop does run: it sleeps
    [BASE_DELAY * 2 ^ (retries + 1)] seconds after each of its five passes,
    the last one included, and returns with the socket open. *)
Example ensure_connection_flaky :
  let r := _ensure_connection W_flaky (initial None) in
  fst r = Ret tt ∧ sock (snd r) = true ∧
  sleeps (trace (snd r))
    = [seconds 120; seconds 240; seconds 480; seconds 960; seconds 1920].
Proof. vm_compute. repeat split. Qed.

(** Every call of [check_event_availability] begins with a connect
    attempt. *)
Lemma ensure_loop_connects W n s :
  (connect_calls s < connect_calls (snd (ensure_loop W (S n) s)))%nat.
Proof.
  cbn [ensure_loop]. unfold_m. unfold conn_connect, conn_close, conn_renew. unfold_m.
  cbn -[ensure_loop Z.pow Z.mul Z.of_nat Z.sub Z.add].
  destruct (connect_outcome W (connect_calls s)) as [e|]; [|cbn; lia].
  destruct (is_class (class_of e) gaierror); [cbn; lia|].
  destruct (is_HTTPException (class_of e) || is_OSError (class_of e)); [|cbn; lia].
  cbn -[ensure_loop Z.pow Z.mul Z.of_nat Z.sub Z.add].
  destruct (connect_outcome W (S (connect_calls s))) as [e'|]; [cbn; lia|].
  cbn -[ensure_loop Z.pow Z.mul Z.of_nat Z.sub Z.add].
  match goal with |- context [ensure_loop W n ?st] =>
    pose proof (framed_ensure_loop W n st) as (_ & _ & _ & _ & _ & Hk) end.
  cbn in Hk. destruct (ensure_loop W n _) as [[[]| |] s']; cbn in *; lia.
Qed.

Lemma check_event_availability_connects W s :
  (connect_calls s < connect_calls (snd (check_event_availability W s)))%nat.
Proof.
  pose (s0 := emit (ELog DEBUG (if sock s then "Connection socket is none: False"
                                else "Connection socket is none: True")) s).
  pose proof (ensure_loop_connects W 4 s0) as Hlt.
  assert (Hs0 : connect_calls s0 = connect_calls s) by reflexivity.
  assert (Heq : check_event_availability W s =
                match ensure_loop W 5 s0 with
                | (Ret _, s1) => availability_request W s1
                | (Raise e, s1) => (Raise e, s1)
                | (OutOfFuel, s1) => (OutOfFuel, s1)
                end) by reflexivity.
  rewrite Heq. destruct (ensure_loop W 5 s0) as [[[]|e|] s1]; cbn [snd] in Hlt |- *; try lia.
  pose proof (framed_availability_request W s1) as (_ & _ & _ & _ & _ & Hk).
  lia.
Qed.

(** ** [check_event_availability] *)

(** C9 (as stated, refuted): a connection-level exception that is not an
    [http.client.HTTPException] does propagate.  When the server resets the
    connection, [getresponse] raises [ConnectionResetError] and so does
    [check_event_availability]. *)
Lemma connection_reset_propagates :
  fst (check_event_availability W_reset (initial None)) = Raise connection_reset
  ∧ is_OSError (class_of connection_reset) = true.
Proof. vm_compute. split; reflexivity. Qed.

(** C9 (amended): an [http.client.HTTPException] raised while
    [check_event_availability] sends its request, reads the response or
    reads the body of a 200 response does not reach the caller, which gets
    the empty list; [ResponseNotReady] leaves the connection open, any other
    [HTTPException] closes it; and every call of
    [check_event_availability] makes a new connect attempt. *)
Theorem http_exception_contained W s s1 e :
  _ensure_connection W
    (emit (ELog DEBUG (if sock s then "Connection socket is none: False"
                       else "Connection socket is none: True")) s) = (Ret tt, s1) →
  is_HTTPException (class_of e) = true →
  (request_outcome W (request_calls s1) = Some e
   ∨ (request_outcome W (request_calls s1) = None ∧
      response_outcome W (response_calls s1) = inl e)
   ∨ (request_outcome W (request_calls s1) = None ∧
      ∃ r, response_outcome W (response_calls s1) = inr r ∧
           status r = 200 ∧ content r = BodyUnreadable e)) →
  (∃ s2, check_event_availability W s = (Ret (PList []), s2) ∧
         sock s2 = is_class (class_of e) ResponseNotReady ∧
         (is_class (class_of e) ResponseNotReady = false →
          ∃ t, trace s2 = t ++ [EClose]))
  ∧ (∀ s', (connect_calls s' < connect_calls (snd (check_event_availability W s')))%nat).
Proof.
  intros Hens Hhttp Hfail. split; [|apply check_event_availability_connects].
  pose proof (ensure_connection_connected _ _ _ Hens) as Hsock.
  unfold check_event_availability. unfold_m. rewrite Hens.
  unfold availability_request, conn_request, send_request, conn_getresponse, conn_close.
  unfold_m. rewrite Hsock. cbn -[is_class is_HTTPException]. rewrite Hsock.
  cbn -[is_class is_HTTPException].
  change (request_calls (emit (ELog DEBUG "Get response") s1)) with (request_calls s1).
  destruct Hfail as [Hreq|[[Hreq Hresp]|(Hreq & r & Hresp & Hst & Hbody)]];
    rewrite Hreq; cbn -[is_class is_HTTPException];
    [|rewrite Hresp; cbn -[is_class is_HTTPException]
     |rewrite Hresp; cbn -[is_class is_HTTPException];
      rewrite Hst; cbn -[is_class is_HTTPException];
      unfold read_json; rewrite Hbody; unfold_m].
  all: destruct (is_class (class_of e) ResponseNotReady) eqn:Hrnr;
    [|rewrite Hhttp]; eexists; (split; [reflexivity|]); cbn; (split; [done|]);
    intros; try done; eexists; reflexivity.
Qed.

Lemma http_exception_contained_witness :
  ∃ s2, check_event_availability W_not_ready (initial None) = (Ret (PList []), s2)
        ∧ sock s2 = true.
Proof.
  destruct (http_exception_contained W_not_ready (initial None)
              (snd (_ensure_connection W_not_ready
                      (emit (ELog DEBUG "Connection socket is none: True") (initial None))))
              response_not_ready)
    as [(s2 & Hrun & Hsock & _) _].
  - vm_compute. reflexivity.
  - reflexivity.
  - right. left. split; reflexivity.
  - exists s2. split; [exact Hrun | exact Hsock].
Defined.

Lemma round_uniform_range W a b s :
  a ≤ b →
  ∃ n, round_uniform W a b s = (Ret n, tick_random s) ∧ a ≤ n ≤ b ∧
       n = a + Z.of_nat (random_draw W (random_calls s)) mod (b - a + 1).
Proof.
  intros Hab. eexists. split; [reflexivity|]. split; [|reflexivity].
  pose proof (Z.mod_pos_bound (Z.of_nat (random_draw W (random_calls s))) (b - a + 1)).
  lia.
Qed.

(** A daytime pass whose poll returns the empty list sets [attempts] to
    [0], adds one to [count] and sleeps the short delay (15 to 30
    seconds), without re-authenticating. *)
Lemma empty_poll_pass W s s1 :
  quiet_window (clock W (clock_calls s)) = false →
  check_event_availability W
    (emit (ELog DEBUG "Check cycle") (tick_random (tick_random (tick_clock s))))
    = (Ret (PList []), s1) →
  ∃ time_delay,
    MIN_TIME ≤ time_delay ≤ MAX_TIME ∧
    iteration W s =
      (Ret tt,
       emit (ESleep (seconds (time_delay + 0)))
         (set_count (count s + 1) (set_attempts 0 s1))).
Proof.
  intros Hq Hpoll.
  destruct (round_uniform_range W MIN_TIME MAX_TIME (tick_clock s)) as (td & Htd & Hr & _);
    [done|].
  exists td. split; [done|].
  pose proof (framed_check_event_availability W
    (emit (ELog DEBUG "Check cycle") (tick_random (tick_random (tick_clock s))))) as Hfr.
  rewrite Hpoll in Hfr. destruct Hfr as (Hc & _). cbn in Hc.
  unfold iteration, datetime_now. unfold_m. rewrite Hq.
  rewrite Htd. unfold round_uniform at 1. unfold poll_cycle. unfold_m.
  cbn -[check_event_availability].
  rewrite Hpoll. cbn. by rewrite Hc.
Qed.

Lemma ensure_loop_requests W n s :
  request_calls (snd (ensure_loop W n s)) = request_calls s.
Proof.
  revert s. induction n as [|n IH]; intros s; [reflexivity|].
  cbn [ensure_loop]. unfold conn_connect, conn_close, conn_renew. unfold_m.
  cbn -[ensure_loop Z.pow Z.mul Z.of_nat Z.sub Z.add].
  destruct (connect_outcome W (connect_calls s)) as [e|]; [|reflexivity].
  destruct (is_class (class_of e) gaierror); [reflexivity|].
  destruct (is_HTTPException (class_of e) || is_OSError (class_of e)); [|reflexivity].
  cbn -[ensure_loop Z.pow Z.mul Z.of_nat Z.sub Z.add].
  destruct (connect_outcome W (S (connect_calls s))) as [e'|]; [reflexivity|].
  cbn -[ensure_loop Z.pow Z.mul Z.of_nat Z.sub Z.add]. by rewrite IH.
Qed.

(** With the socket open, lines 133 to 152 send exactly one request,
    however they end. *)
Lemma availability_request_requests W s :
  sock s = true →
  request_calls (snd (availability_request W s)) = S (request_calls s).
Proof.
  intros Hsock. unfold availability_request, conn_request, send_request, conn_getresponse,
    read_json, conn_close.
  unfold_m. rewrite Hsock.
  change (sock (emit (ELog DEBUG "Get response") s)) with (sock s). rewrite Hsock.
  repeat case_match; simplify_eq; reflexivity.
Qed.

(** C10 (fails on the code): [_ensure_connection] never returns without an
    open socket, so [check_event_availability] never returns without having
    sent its request and the branch that returns the empty list for a
    missing socket is never taken.  When the connection cannot be
    established for a poll (after the login every [connect] is refused),
    the [OSError] of the second [connect] of the handler (line 86) leaves
    [_ensure_connection] and [check_event_availability]; the pass does not
    go on as after an empty poll (no short sleep, no next pass): [run]
    ends through its outermost handler, with the one request of the login
    sent and one notification reporting the exception. *)
Theorem no_connection_ends_run :
  (∀ W s s', _ensure_connection W s = (Ret tt, s') → sock s' = true) ∧
  (∀ W s items s',
     check_event_availability W s = (Ret items, s') →
     request_calls s' = S (request_calls s)) ∧
  let r := run W_refused_later 3 (initial None) in
  fst r = Ret tt ∧
  notifications (trace (snd r))
    = ["Cycle 1 Caught exception [Errno 111] Connection refused"] ∧
  sleeps (trace (snd r)) = [] ∧
  request_calls (snd r) = 1%nat ∧
  count (snd r) = 1.
Proof.
  split; [|split; [|vm_compute; repeat split]].
  - intros W s s'. apply ensure_connection_connected.
  - intros W s items s' H. unfold check_event_availability in H. unfold_m.
    set (s0 := emit _ s) in H.
    destruct (_ensure_connection W s0) as [[[]|e|] s1] eqn:Hens; [|done..].
    pose proof (ensure_connection_connected _ _ _ Hens) as Hsock.
    pose proof (availability_request_requests W s1 Hsock) as Hreq.
    rewrite H in Hreq. cbn in Hreq. rewrite Hreq.
    pose proof (ensure_loop_requests W (Z.to_nat MAX_RETRIES) s0) as Hsame.
    change (ensure_loop W (Z.to_nat MAX_RETRIES) s0) with (_ensure_connection W s0) in Hsame.
    rewrite Hens in Hsame. cbn [snd] in Hsame. by rewrite Hsame.
Qed.

(** ** [authenticate] *)






(** A 200 response whose [responseData] is [null] has all four fields and
    makes [authenticate] return that value, which is [None]. *)
Example authenticate_null_token :
  fst (authenticate
         (daytime (λ _, inr (Response 200
            (BodyJson (PDict [("responseData", PNone); ("responseCode", PInt 101);
                              ("description", PStr "bad login"); ("clock", PInt 1)])))))
         (initial None))
    = Ret PNone.
Proof. reflexivity. Qed.


(** ** The main loop *)

Lemma at_hour_next_day now :
  at_hour (now + day_us) 8 = (now / day_us + 1) * day_us + 8 * hour_us.
Proof. unfold at_hour, day_us, hour_us. Z.to_euclidean_division_equations. lia. Qed.

(** C4 (fails on the code): in the quiet window the pass reads no random
    delay and makes no connect attempt and no request; it logs, sleeps
    once, sets [count] to 1 and goes round again.  From 22:00 on the sleep
    is the time to the next 08:00.  Before 08:00 it is not: the wake time
    is taken on the calendar day after today, so the pass sleeps through
    the next 08:00 and wakes 24 hours after it. *)
Theorem quiet_window_skips_a_day W s :
  let now := clock W (clock_calls s) in
  (22 ≤ hour now ∨ hour now < 8) →
  ∃ d,
    iteration W s =
      (Ret tt,
       set_count 1
         (emit (ESleep d) (emit (ELog DEBUG "Sleeping until wake time") (tick_clock s)))) ∧
    0 < until_next_eight now ≤ 10 * hour_us ∧
    hour (now + until_next_eight now) = 8 ∧
    (now + until_next_eight now) mod hour_us = 0 ∧
    (22 ≤ hour now → d = until_next_eight now) ∧
    (hour now < 8 → d = until_next_eight now + day_us).
Proof.
  intros now Hq. exists (at_hour (now + day_us) 8 - now). split_and!.
  - unfold iteration, datetime_now. unfold_m. cbn -[quiet_window at_hour].
    fold now. replace (quiet_window now) with true; [reflexivity|].
    unfold quiet_window. symmetry. apply orb_true_iff.
    destruct Hq; [left; by apply Z.leb_le | right; by apply Z.ltb_lt].
  - revert Hq. unfold until_next_eight, hour, day_us, hour_us.
    Z.to_euclidean_division_equations. lia.
  - revert Hq. unfold until_next_eight, hour, day_us, hour_us.
    Z.to_euclidean_division_equations. lia.
  - revert Hq. unfold until_next_eight, hour, day_us, hour_us.
    Z.to_euclidean_division_equations. lia.
  - revert Hq. unfold until_next_eight, hour, day_us, hour_us.
    Z.to_euclidean_division_equations. lia.
  - intros H22. revert H22. unfold until_next_eight, at_hour, hour, day_us, hour_us.
    Z.to_euclidean_division_equations. lia.
  - intros H8. revert H8. unfold until_next_eight, at_hour, hour, day_us, hour_us.
    Z.to_euclidean_division_equations. lia.
Qed.

Lemma quiet_window_skips_a_day_witness :
  sleeps (trace (snd (iteration W_before_dawn (in_loop ∅ 0)))) = [seconds (29 * 3600)] ∧
  until_next_eight three_am = seconds (5 * 3600) ∧
  sleeps (trace (snd (iteration W_night (in_loop ∅ 0)))) = [seconds (9 * 3600)] ∧
  until_next_eight eleven_pm = seconds (9 * 3600).
Proof.
  destruct (quiet_window_skips_a_day W_before_dawn (in_loop ∅ 0))
    as (d & Hrun & _ & _ & _ & _ & Hd).
  { right. vm_compute. reflexivity. }
  destruct (quiet_window_skips_a_day W_night (in_loop ∅ 0))
    as (d' & Hrun' & _ & _ & _ & Hd' & _).
  { left. vm_compute. discriminate. }
  rewrite Hrun, Hrun', Hd, Hd'.
  - vm_compute. repeat split.
  - vm_compute. discriminate.
  - vm_compute. reflexivity.
Defined.

(** Before 08:00 the same sleep lasts until 08:00 of the following day: at
    03:00:00 it is 29 hours. *)
Example quiet_window_before_dawn :
  let now := 739000 * day_us + 3 * hour_us in
  at_hour (now + day_us) 8 - now = seconds (29 * 3600).
Proof. reflexivity. Qed.

(** *** Consecutive failures of the poll *)


Lemma notify_item_attempts W items item s :
  attempts (snd (notify_item W items item s)) = attempts s.
Proof.
  unfold notify_item, read_notified_ids, save_notified_ids. unfold_m.
  destruct (extract_id W items) as [id|e|]; [|reflexivity..].
  destruct (notified_ids s) as [ids|]; [|reflexivity].
  destruct (bool_decide (HStr id ∈ ids)); [reflexivity|].
  cbn. by destruct (notify_outcome W (notify_calls s)).
Qed.

Lemma process_items_attempts W items s :
  attempts (snd (process_items W items s)) = attempts s.
Proof.
  unfold process_items. destruct (truthy items); [|reflexivity]. unfold_m.
  destruct (py_iter items) as [l|e|]; [|reflexivity..].
  revert s. induction l as [|item l IH]; intros s; [reflexivity|].
  cbn [for_each]. unfold mbind, M_bind.
  pose proof (notify_item_attempts W items item s) as Hitem.
  destruct (notify_item W items item s) as [[[]|e|] s1]; cbn [snd] in *; [|done..].
  by rewrite IH.
Qed.

(** A poll cycle that completes leaves [attempts] at [0] (line 188). *)
Lemma poll_cycle_resets W td s s' :
  poll_cycle W td s = (Ret tt, s') → attempts s' = 0.
Proof.
  unfold poll_cycle. intros H.
  apply bind_ret_inv in H as (? & s1 & H1 & H).
  apply bind_ret_inv in H as (items & s2 & H2 & H).
  apply bind_ret_inv in H as (? & s3 & H3 & H).
  apply bind_ret_inv in H as (? & s4 & H4 & H).
  apply bind_ret_inv in H as (? & s5 & H5 & H).
  assert (s3 = set_attempts 0 s2) as -> by (cbv [modify] in H3; congruence).
  assert (s4 = set_count (count (set_attempts 0 s2) + 1) (set_attempts 0 s2)) as ->
    by (cbv [modify] in H4; congruence).
  pose proof (process_items_attempts W items
                (set_count (count (set_attempts 0 s2) + 1) (set_attempts 0 s2))) as Hp.
  rewrite H5 in Hp. cbn in Hp.
  assert (s' = emit (ESleep (seconds (td + 0))) s5) as ->
    by (cbv [time_sleep modify] in H; congruence).
  exact Hp.
Qed.

(** A daytime pass whose poll cycle completes is a pass that completes, in
    the state the poll cycle reached. *)
Lemma successful_pass W s s' :
  quiet_window (clock W (clock_calls s)) = false →
  poll_cycle W (short_delay W s) (tick_random (tick_random (tick_clock s))) = (Ret tt, s') →
  iteration W s = (Ret tt, s') ∧ streak W 0 s' ∧ attempts s' = 0.
Proof.
  intros Hq Hpoll. split_and!.
  - unfold iteration, datetime_now, round_uniform, try_except. unfold_m. rewrite Hq.
    change (random_calls (tick_clock s)) with (random_calls s).
    fold (short_delay W s). by rewrite Hpoll.
  - by eapply streak_success.
  - by eapply poll_cycle_resets.
Qed.





(** The third failure in a row, reached by running the two passes before
    it, sleeps [base * 2 ^ 2] seconds. *)
Example third_failure_in_a_row :
  let s2 := snd (iteration W_expired (snd (iteration W_expired (in_loop ∅ 0)))) in
  streak W_expired 2 s2 ∧
  sleeps (trace (snd (iteration W_expired s2)))
    = [seconds (217 * 2 ^ 0); seconds (291 * 2 ^ 1); seconds (184 * 2 ^ 2)].
Proof.
  split; [|vm_compute; reflexivity].
  eapply (streak_failure W_expired 1 (snd (iteration W_expired (in_loop ∅ 0)))
            (not_two_hundred 403));
    [eapply (streak_failure W_expired 0 (in_loop ∅ 0) (not_two_hundred 403));
       [apply (streak_entry W_expired
                 (set_count 1 (set_notified_ids ∅ (set_sock true (initial None)))))|..]|..];
    vm_compute; reflexivity.
Qed.

(** Seven consecutive 403 answers, each followed by a successful login: the
    six backoff sleeps are [base * 2 ^ n] seconds for [n] from 0 to 5, each
    with the base drawn in its own pass, and the seventh failure ends the
    process. *)
Example seven_failures_in_a_row :
  let r := run W_forbidden 7 (initial None) in
  fst r = Raise (Exn SystemExit exit_error_message) ∧
  exit_status (fst r) = Some 1 ∧
  sleeps (trace (snd r))
    = [seconds (217 * 2 ^ 0); seconds (291 * 2 ^ 1); seconds (184 * 2 ^ 2);
       seconds (258 * 2 ^ 3); seconds (332 * 2 ^ 4); seconds (225 * 2 ^ 5)] ∧
  notifications (trace (snd r)) = [exit_error_message] ∧
  notified_file (snd r) = Some (JsonText (PList [])).
Proof. vm_compute. repeat split. Qed.

(** * Further properties of the client *)


(** ** [check_env_variables] *)

Lemma for_each_log (keys : list string) s :
  for_each keys (λ key, log ERROR ("Environment variable " +:+ key +:+ " is not set")) s
    = (Ret tt, State (sock s) (notified_file s) (trace s ++ map not_set keys)
                 (connect_calls s) (request_calls s) (response_calls s)
                 (clock_calls s) (random_calls s) (notify_calls s) (count s)
                 (attempts s) (notified_ids s)).
Proof.
  revert s. induction keys as [|key keys IH]; intros s.
  - cbn. rewrite app_nil_r. by destruct s.
  - cbn [for_each]. unfold_m. cbn -[for_each]. unfold_m. rewrite IH. cbn.
    by rewrite <- app_assoc.
Qed.

Lemma filter_nil_missing W :
  List.filter (env_missing W) REQUIRED_ENV_VARIABLES = [] ↔
  ∀ key, key ∈ REQUIRED_ENV_VARIABLES → ∃ v, getenv W key = Some v ∧ v ≠ "".
Proof.
  split.
  - intros Hnil key Hkey. apply list_elem_of_In in Hkey.
    destruct (env_missing W key) eqn:Hm.
    + assert (Hin : In key (List.filter (env_missing W) REQUIRED_ENV_VARIABLES))
        by (apply filter_In; done).
      rewrite Hnil in Hin. destruct Hin.
    + unfold env_missing in Hm. destruct (getenv W key) as [v|]; [|done].
      exists v. split; [done|]. intros ->. done.
  - intros Hall. destruct (List.filter _ _) as [|key l] eqn:Hf; [done|].
    assert (Hin : In key (List.filter (env_missing W) REQUIRED_ENV_VARIABLES))
      by (rewrite Hf; by left).
    apply filter_In in Hin as [Hin Hm].
    destruct (Hall key) as (v & Hv & Hne); [by apply list_elem_of_In|].
    unfold env_missing in Hm. rewrite Hv in Hm.
    apply String.eqb_eq in Hm. done.
Qed.

(** X1: [check_env_variables] returns exactly when every required variable
    is set to a non-empty value; otherwise it raises [RuntimeError] after
    logging one error for each missing variable, in the order of
    [REQUIRED_ENV_VARIABLES].  Either way it makes no connect attempt, sends
    no request and leaves the ledger file alone. *)
Theorem check_env_variables_spec W s :
  let missing := List.filter (env_missing W) REQUIRED_ENV_VARIABLES in
  let r := check_env_variables W s in
  (fst r = Ret tt ↔
   ∀ key, key ∈ REQUIRED_ENV_VARIABLES → ∃ v, getenv W key = Some v ∧ v ≠ "") ∧
  (fst r = Ret tt ∨
   fst r = Raise (Exn RuntimeError "Missing required environment variables") ∧
   trace (snd r) = trace s ++ map not_set missing) ∧
  connect_calls (snd r) = connect_calls s ∧
  request_calls (snd r) = request_calls s ∧
  notified_file (snd r) = notified_file s.
Proof.
  intros missing r. subst r. unfold check_env_variables. fold missing.
  pose proof (filter_nil_missing W) as Hiff. fold missing in Hiff.
  destruct missing as [|key l] eqn:Hm.
  - cbn. split_and!; try done; [|by left]. split; [intros _; by apply Hiff | done].
  - unfold_m. rewrite for_each_log. cbn. split_and!; try done; [|by right].
    split; [done|]. intros Hall. apply Hiff in Hall. done.
Qed.

Lemma check_env_variables_spec_witness :
  fst (check_env_variables W_incomplete (initial None))
    = Raise (Exn RuntimeError "Missing required environment variables") ∧
  trace (snd (check_env_variables W_incomplete (initial None)))
    = [not_set "TWICKETS_EVENT_ID"; not_set "PROWL_API_KEY"].
Proof.
  destruct (check_env_variables_spec W_incomplete (initial None))
    as (_ & [Hret | [Hraise Htrace]] & _).
  - discriminate Hret.
  - split; [exact Hraise|exact Htrace].
Defined.

(** ** [load_notified_ids] on any file *)

Lemma to_hashable_cases v :
  (∃ h, to_hashable v = Ret h) ∨ (∃ m, to_hashable v = Raise (Exn TypeError m)).
Proof. destruct v; cbn; eauto. Qed.

Lemma set_of_list_cases l :
  (∃ ids, set_of_list l = Ret ids) ∨ (∃ m, set_of_list l = Raise (Exn TypeError m)).
Proof.
  induction l as [|v l IH]; [left; by eexists|]. cbn [set_of_list].
  destruct (to_hashable_cases v) as [[h ->]|[m ->]]; [|right; by eexists].
  destruct IH as [[ids ->]|[m ->]]; [left|right]; by eexists.
Qed.

Lemma py_set_cases v :
  (∃ ids, py_set v = Ret ids) ∨ (∃ m, py_set v = Raise (Exn TypeError m)).
Proof.
  unfold py_set. destruct v; cbn; try (right; by eexists); apply set_of_list_cases.
Qed.

(** X2: [load_notified_ids] changes nothing, and either returns a set or
    raises in one of two ways, neither covered by the
    [except json.JSONDecodeError] clause: [TypeError], when the file holds a
    JSON document that [set(...)] rejects (not an iterable, or with an
    unhashable element); or the exception with which reading the file
    fails, when that is not a [JSONDecodeError] ([UnicodeDecodeError],
    [RecursionError], [OSError]). *)
Theorem load_notified_ids_outcomes s :
  snd (load_notified_ids s) = s ∧
  ((∃ ids, fst (load_notified_ids s) = Ret ids) ∨
   (∃ m v, notified_file s = Some (JsonText v) ∧
           fst (load_notified_ids s) = Raise (Exn TypeError m)) ∨
   (∃ e, notified_file s = Some (Unreadable e) ∧
         class_of e ≠ JSONDecodeError ∧
         fst (load_notified_ids s) = Raise e)).
Proof.
  unfold load_notified_ids. unfold_m. destruct (notified_file s) as [[v|g|e]|]; cbn.
  - destruct (py_set_cases v) as [[ids ->]|[m ->]]; cbn.
    + split; [done|]. left. by eexists.
    + split; [done|]. right. left. by exists m, v.
  - split; [done|]. left. by eexists.
  - destruct (is_class (class_of e) JSONDecodeError) eqn:He.
    + split; [done|]. left. by eexists.
    + split; [done|]. right. right. exists e. split_and!; [done| |done].
      intros Hc. rewrite Hc in He. discriminate He.
  - split; [done|]. left. by eexists.
Qed.

(** ** [validate_auth_response] on values that are not objects *)

Lemma all_in_list keys l : ∃ b, all_in keys (PList l) = Ret b.
Proof.
  induction keys as [|k keys [b IH]]; [by eexists|]. cbn [all_in py_in].
  destruct (existsb _ l); [rewrite IH|]; by eexists.
Qed.

Lemma all_in_str keys t : ∃ b, all_in keys (PStr t) = Ret b.
Proof.
  induction keys as [|k keys [b IH]]; [by eexists|]. cbn [all_in py_in].
  destruct (contains k t); [rewrite IH|]; by eexists.
Qed.

(** X3: for a login body that is valid JSON but not an object,
    [validate_auth_response] never yields a token: it returns [None] or
    raises [TypeError] (from [key in response] on a number, a boolean or
    [null], or from [response['responseData']] on a list or a string that
    happens to contain the four names). *)
Theorem validate_auth_response_not_object v :
  (∀ d, v ≠ PDict d) →
  validate_auth_response v = Ret PNone ∨
  ∃ m, validate_auth_response v = Raise (Exn TypeError m).
Proof.
  intros Hv. unfold validate_auth_response. destruct v as [| | |t|l|d].
  - right. by eexists.
  - right. by eexists.
  - right. by eexists.
  - destruct (all_in_str required_keys t) as [[] ->]; [right; by eexists | by left].
  - destruct (all_in_list required_keys l) as [[] ->]; [right; by eexists | by left].
  - by destruct (Hv d).
Qed.

Lemma validate_auth_response_not_object_witness :
  validate_auth_response (PList []) = Ret PNone ∧
  validate_auth_response
    (PList [PStr "responseData"; PStr "responseCode"; PStr "description"; PStr "clock"])
  = Raise (Exn TypeError "list indices must be integers or slices, not str").
Proof.
  split.
  - destruct (validate_auth_response_not_object (PList [])) as [H|[m H]];
      [discriminate | exact H | discriminate H].
  - destruct (validate_auth_response_not_object
      (PList [PStr "responseData"; PStr "responseCode"; PStr "description"; PStr "clock"]))
      as [H|[m H]]; [discriminate | discriminate H | reflexivity].
Defined.

(** ** The id of a listing *)

Lemma rev_app_rev_app a b c :
  String.rev_app (String.rev_app a b) c = String.rev_app b (a +:+ c).
Proof.
  revert b c. induction a as [|x a IH]; intros b c; [reflexivity|].
  cbn [String.rev_app]. rewrite IH. reflexivity.
Qed.

Lemma append_empty_r a : a +:+ EmptyString = a.
Proof.
  induction a as [|x a IH]; [reflexivity|].
  change (String x a +:+ EmptyString) with (String x (a +:+ EmptyString)).
  by rewrite IH.
Qed.

Lemma split_go_piece sep cur a rest :
  no_sep sep a = true →
  split_go sep cur (a +:+ String sep rest)
    = String.rev (String.rev_app a cur) :: split_go sep EmptyString rest.
Proof.
  revert cur. induction a as [|x a IH]; intros cur Ha.
  - change (EmptyString +:+ String sep rest) with (String sep rest).
    cbn. by rewrite Ascii.eqb_refl.
  - cbn in Ha. apply andb_true_iff in Ha as [Hx Ha]. apply negb_true_iff in Hx.
    change (String x a +:+ String sep rest) with (String x (a +:+ String sep rest)).
    cbn. rewrite Hx. by rewrite IH.
Qed.

Lemma split_go_last sep cur a :
  no_sep sep a = true →
  split_go sep cur a = [String.rev (String.rev_app a cur)].
Proof.
  revert cur. induction a as [|x a IH]; intros cur Ha; [reflexivity|].
  cbn in Ha. apply andb_true_iff in Ha as [Hx Ha]. apply negb_true_iff in Hx.
  cbn. rewrite Hx. by rewrite IH.
Qed.

Lemma rev_rev_app a : String.rev (String.rev_app a EmptyString) = a.
Proof.
  unfold String.rev. rewrite rev_app_rev_app. cbn [String.rev_app].
  apply append_empty_r.
Qed.

(** X4: the id that line 192 extracts from a record is the text between
    the first and the second ['@'] of [str(record['id'])], or everything
    after the first ['@'] when there is no second; without ['@'] the line
    raises [IndexError], and without the key [id] it raises [KeyError]. *)
Theorem extract_id_between_separators W d a b :
  no_sep at_sign a = true → no_sep at_sign b = true →
  (assoc "id" d = None →
   extract_id W (PDict d) = Raise (Exn KeyError "'id'")) ∧
  (assoc "id" d = Some (PStr a) →
   extract_id W (PDict d) = Raise (Exn IndexError "list index out of range")) ∧
  (assoc "id" d = Some (PStr (a +:+ String at_sign b)) →
   extract_id W (PDict d) = Ret b) ∧
  (∀ rest, assoc "id" d = Some (PStr (a +:+ String at_sign (b +:+ String at_sign rest))) →
   extract_id W (PDict d) = Ret b).
Proof.
  intros Ha Hb. unfold extract_id, py_getitem, split. split_and!.
  - by intros ->.
  - intros ->. cbn [py_str]. by rewrite split_go_last.
  - intros ->. cbn [py_str]. rewrite split_go_piece by done.
    rewrite split_go_last by done. by rewrite rev_rev_app.
  - intros rest ->. cbn [py_str]. rewrite split_go_piece by done.
    rewrite split_go_piece by done. by rewrite rev_rev_app.
Qed.

(** ** The schedule of [_ensure_connection] *)

Lemma sleeps_app t1 t2 : sleeps (t1 ++ t2) = sleeps t1 ++ sleeps t2.
Proof. apply omap_app. Qed.

Lemma notifications_app t1 t2 : notifications (t1 ++ t2) = notifications t1 ++ notifications t2.
Proof. apply omap_app. Qed.

Lemma ensure_loop_schedule W n s :
  ∃ k, (k ≤ n)%nat ∧
    sleeps (trace (snd (ensure_loop W n s)))
      = sleeps (trace s)
        ++ map (λ i, seconds (BASE_DELAY * 2 ^ (MAX_RETRIES - Z.of_nat n + Z.of_nat i)))
             (seq 1 k) ∧
    (connect_calls (snd (ensure_loop W n s)) ≤ connect_calls s + 2 * n)%nat.
Proof.
  revert s. induction n as [|n IH]; intros s.
  - exists O. cbn. rewrite sleeps_app. cbn. split_and!; [lia|done|lia].
  - cbn [ensure_loop]. unfold_m. unfold conn_connect, conn_close, conn_renew. unfold_m.
    cbn -[ensure_loop Z.pow Z.mul Z.of_nat Z.sub Z.add seq].
    destruct (connect_outcome W (connect_calls s)) as [e|].
    2:{ exists O. cbn. rewrite !sleeps_app. cbn. rewrite !app_nil_r.
        split_and!; [lia|done|lia]. }
    destruct (is_class (class_of e) gaierror).
    { exists O. cbn. rewrite !sleeps_app. cbn. rewrite !app_nil_r.
      split_and!; [lia|done|lia]. }
    destruct (is_HTTPException (class_of e) || is_OSError (class_of e)).
    2:{ exists O. cbn. rewrite !sleeps_app. cbn. rewrite !app_nil_r.
        split_and!; [lia|done|lia]. }
    cbn -[ensure_loop Z.pow Z.mul Z.of_nat Z.sub Z.add seq].
    destruct (connect_outcome W (S (connect_calls s))) as [e'|].
    { exists O. cbn. rewrite !sleeps_app. cbn. rewrite !app_nil_r.
      split_and!; [lia|done|lia]. }
    cbn -[ensure_loop Z.pow Z.mul Z.of_nat Z.sub Z.add seq].
    match goal with |- context [ensure_loop W n ?st] =>
      destruct (IH st) as (k & Hk & Hs & Hc); set (s'' := st) in * end.
    exists (S k).
    split; [lia|].
    assert (Hcc : connect_calls s'' = S (S (connect_calls s))) by reflexivity.
    assert (Hsl : sleeps (trace s'')
              = sleeps (trace s)
                ++ [seconds (BASE_DELAY * 2 ^ (MAX_RETRIES - Z.of_nat (S n) + 1))]).
    { subst s''. cbn [trace emit set_sock tick_connect]. by rewrite !sleeps_app, !app_nil_r. }
    rewrite Hs, Hsl. split; [|lia].
    rewrite <- app_assoc. f_equal. cbn [seq map app]. f_equal.
    rewrite <- (seq_shift k 1), map_map. apply map_ext. intros i. do 3 f_equal. lia.
Qed.

(** X5: whatever the network does, [_ensure_connection] sleeps at most
    five times, the [i]-th sleep (from 1) lasting [BASE_DELAY * 2 ^ i]
    seconds (120, 240, 480, 960, 1920: [retries] is incremented before the
    sleep), and calls [connect] at most ten times. *)
Theorem ensure_connection_schedule W s :
  ∃ k, (k ≤ 5)%nat ∧
    sleeps (trace (snd (_ensure_connection W s))) = sleeps (trace s) ++ retry_schedule k ∧
    (connect_calls (snd (_ensure_connection W s)) ≤ connect_calls s + 10)%nat.
Proof.
  destruct (ensure_loop_schedule W 5 s) as (k & Hk & Hs & Hc).
  exists k. split; [done|]. split; [|exact Hc].
  unfold _ensure_connection. change (Z.to_nat MAX_RETRIES) with 5%nat. rewrite Hs.
  reflexivity.
Qed.

(** X6: when [_ensure_connection] returns, the socket is open and at least
    one [connect] has been attempted, also when the socket was open
    before the call. *)
Theorem ensure_connection_returns_open W s s' :
  _ensure_connection W s = (Ret tt, s') →
  sock s' = true ∧ (connect_calls s < connect_calls s')%nat.
Proof.
  intros H. split; [by eapply ensure_connection_connected|].
  pose proof (ensure_loop_connects W 4 s) as Hlt.
  unfold _ensure_connection in H. change (Z.to_nat MAX_RETRIES) with 5%nat in H.
  by rewrite H in Hlt.
Qed.

Lemma ensure_connection_returns_open_witness :
  ∃ s', _ensure_connection W_flaky (initial None) = (Ret tt, s') ∧
    sock s' = true ∧ connect_calls s' = 10%nat.
Proof.
  exists (snd (_ensure_connection W_flaky (initial None))).
  destruct (ensure_connection_returns_open W_flaky (initial None)
              (snd (_ensure_connection W_flaky (initial None)))) as [Hsock _].
  - vm_compute. reflexivity.
  - split; [vm_compute; reflexivity|]. split; [exact Hsock|]. vm_compute. reflexivity.
Defined.

Lemma extract_id_between_separators_witness :
  extract_id W_login (listing "evt@A") = Ret "A".
Proof.
  destruct (extract_id_between_separators W_login
              [("id", PStr "evt@A"); ("amount", PInt 1)] "evt" "A")
    as (_ & _ & Htwo & _).
  - vm_compute. reflexivity.
  - vm_compute. reflexivity.
  - apply Htwo. reflexivity.
Defined.

(** ** What a poll returns *)

Lemma availability_request_answered W s r :
  sock s = true →
  request_outcome W (request_calls s) = None →
  response_outcome W (response_calls s) = inr r →
  ∃ s1, sock s1 = true ∧
    trace s1 = trace s ++ [ELog DEBUG "Get response"; ERequest "GET" (listings_url W);
                           EGetResponse] ∧
    availability_request W s =
      try_except
        (if status r =? 200 then
           result ← read_json r;
           code ← lift (py_get result "responseCode");
           clock_val ← lift (py_get result "clock");
           items ← lift (py_get result "responseData");
           n ← lift (py_len items);
           log DEBUG "Response code, clock, tickets";;
           mret items
         else raise (not_two_hundred (status r)))
        (λ e,
           if is_class (class_of e) ResponseNotReady then
             log DEBUG "http.client.ResponseNotReady exception";;
             mret (PList [])
           else if is_HTTPException (class_of e) then
             conn_close;;
             mret (PList [])
           else raise e) s1.
Proof.
  intros Hsock Hreq Hresp.
  exists (tick_response (emit EGetResponse (tick_request
            (emit (ERequest "GET" (listings_url W)) (emit (ELog DEBUG "Get response") s))))).
  split; [exact Hsock|]. split; [cbn; by rewrite <- !app_assoc|].
  unfold availability_request, conn_request, send_request, conn_getresponse.
  unfold_m. rewrite Hsock.
  change (sock (emit (ELog DEBUG "Get response") s)) with (sock s). rewrite Hsock.
  change (request_calls (emit (ELog DEBUG "Get response") s)) with (request_calls s).
  rewrite Hreq.
  match goal with |- context [response_outcome W (response_calls ?x)] =>
    change (response_calls x) with (response_calls s) end.
  rewrite Hresp. reflexivity.
Qed.

(** X7: on an open connection, when the listings request is answered with
    status 200 and a JSON object, [check_event_availability] (lines 133 to
    152) returns the list under [responseData] as it is; when the object
    has no [responseData], [len(None)] raises [TypeError], which neither
    [except] clause catches.  The socket stays open and [notified_ids] is
    untouched. *)
Theorem availability_request_listings W s r d :
  sock s = true →
  request_outcome W (request_calls s) = None →
  response_outcome W (response_calls s) = inr r →
  status r = 200 → content r = BodyJson (PDict d) →
  (∀ l, assoc "responseData" d = Some (PList l) →
     fst (availability_request W s) = Ret (PList l)) ∧
  (assoc "responseData" d = None →
     fst (availability_request W s)
       = Raise (Exn TypeError "object of type 'NoneType' has no len()")) ∧
  sock (snd (availability_request W s)) = true ∧
  notified_ids (snd (availability_request W s)) = notified_ids s.
Proof.
  intros Hsock Hreq Hresp Hst Hbody.
  pose proof (framed_availability_request W s) as (_ & _ & Hids & _).
  split_and!; [..|exact Hids];
    destruct (availability_request_answered W s r Hsock Hreq Hresp) as (s1 & Hs1 & _ & ->);
    unfold read_json; rewrite Hst, Hbody; unfold_m; cbn [Z.eqb Pos.eqb py_get].
  - intros l ->. reflexivity.
  - intros ->. reflexivity.
  - destruct (assoc "responseData" d) as [[]|]; exact Hs1.
Qed.

Lemma availability_request_listings_witness :
  fst (availability_request W_no_listings (in_loop ∅ 0)) = Ret (PList []).
Proof.
  destruct (availability_request_listings W_no_listings (in_loop ∅ 0)
              (listings_response (PList []))
              [("responseData", PList []); ("responseCode", PInt 100);
               ("description", PNone); ("clock", PInt 1730000000)])
    as (Hlist & _); [reflexivity..|].
  apply Hlist. reflexivity.
Defined.



(** ** One notification per poll at most *)

Lemma notify_item_new W items item s ids id :
  notified_ids s = Some ids → extract_id W items = Ret id → HStr id ∉ ids →
  let handed := tick_notify (emit (ENotify ("Check " +:+ (block_url id))) s) in
  notify_item W items item s =
    match notify_outcome W (notify_calls s) with
    | None =>
        (Ret tt,
         set_notified_file (Some (JsonText (py_list_of_set ({[HStr id]} ∪ ids))))
           (emit (EWrite (py_list_of_set ({[HStr id]} ∪ ids)))
              (set_notified_ids ({[HStr id]} ∪ ids) handed)))
    | Some e => (Raise e, handed)
    end.
Proof.
  intros Hids Hid Hnotin handed. unfold notify_item, read_notified_ids, save_notified_ids.
  unfold_m. rewrite Hid, Hids. rewrite bool_decide_eq_false_2 by done.
  by destruct (notify_outcome W (notify_calls s)).
Qed.

(** X9: whatever [items] is, lines 190 to 197 either leave the client as
    it was, or hand exactly one notification to the notifier, for the one
    id that line 192 extracts from [items] and that is not in
    [notified_ids].  When the notifier raises, its exception ends the
    lines with nothing added and nothing written; when it returns, the id
    is added to [notified_ids] and the enlarged set is written to the
    file.  In particular one poll never announces more than one
    listing. *)
Theorem process_items_at_most_one W items s ids :
  notified_ids s = Some ids →
  snd (process_items W items s) = s ∨
  ∃ id, extract_id W items = Ret id ∧ (HStr id ∉ ids) ∧
    ((∃ e, notify_outcome W (notify_calls s) = Some e ∧
        process_items W items s
          = (Raise e, tick_notify (emit (ENotify ("Check " +:+ (block_url id))) s))) ∨
     (notify_outcome W (notify_calls s) = None ∧
      trace (snd (process_items W items s))
        = trace s ++ [ENotify ("Check " +:+ (block_url id));
                      EWrite (py_list_of_set ({[HStr id]} ∪ ids))] ∧
      notified_ids (snd (process_items W items s)) = Some ({[HStr id]} ∪ ids) ∧
      notified_file (snd (process_items W items s))
        = Some (JsonText (py_list_of_set ({[HStr id]} ∪ ids))))).
Proof.
  intros Hids.
  destruct (extract_id W items) as [id|e|] eqn:Hid.
  2,3: left; destruct (process_items_known W items s ids Hids) as [r ->];
    [intros ? ?; congruence|reflexivity].
  destruct (decide (HStr id ∈ ids)) as [Hin|Hnotin].
  { left. destruct (process_items_known W items s ids Hids) as [r ->]; [|done].
    intros id' Hid'. congruence. }
  unfold process_items. destruct (truthy items); [|by left]. unfold_m.
  destruct (py_iter items) as [[|item l]|e|]; [by left| |by left..].
  right. exists id. split; [done|]. split; [done|].
  cbn [for_each]. unfold_m. rewrite (notify_item_new W items item s ids id) by done.
  destruct (notify_outcome W (notify_calls s)) as [e|]; [left; by exists e|].
  right. split; [done|].
  match goal with |- context [for_each l _ ?st] => set (s2 := st) end.
  destruct (for_each_known W items l s2 ({[HStr id]} ∪ ids)) as [r ->].
  - reflexivity.
  - intros id' Hid'. assert (id' = id) as -> by congruence. set_solver.
  - cbn [snd]. subst s2. cbn. by rewrite <- app_assoc.
Qed.

Lemma process_items_at_most_one_witness :
  notifications (trace (snd (process_items W_login (listing "evt@A") (in_loop ∅ 0))))
    = ["Check https://www.twickets.live/app/block/A,1"].
Proof.
  destruct (process_items_at_most_one W_login (listing "evt@A") (in_loop ∅ 0) ∅)
    as [Hsame | (id & Hid & _ & [(e & He & _) | (_ & Htrace & _)])].
  - reflexivity.
  - exfalso. apply (f_equal (λ st, length (trace st))) in Hsame. vm_compute in Hsame.
    discriminate Hsame.
  - discriminate He.
  - rewrite Htrace. vm_compute in Hid. injection Hid as <-. vm_compute. reflexivity.
Defined.

(** ** The ledger only grows *)

Lemma advances_refl s : advances s s.
Proof. split_and!; [exists []; by rewrite app_nil_r|done|]. intros ids H. by exists ids. Qed.

Lemma advances_trans s1 s2 s3 : advances s1 s2 → advances s2 s3 → advances s1 s3.
Proof.
  intros ([t1 Ht1] & Ha1 & Hk1) ([t2 Ht2] & Ha2 & Hk2). split_and!.
  - exists (t1 ++ t2). by rewrite Ht2, Ht1, app_assoc.
  - auto.
  - intros ids H1. destruct (Hk1 ids H1) as (ids2 & H2 & Hsub).
    destruct (Hk2 ids2 H2) as (ids3 & H3 & Hsub'). exists ids3. split; [done|set_solver].
Qed.

Lemma advances_frame s s' : frame s s' → advances s s'.
Proof.
  intros (_ & Ha & Hids & _ & Ht & _). split_and!; [done|by rewrite Ha|].
  intros ids H. exists ids. by rewrite Hids.
Qed.

Lemma advancing_framed {A} (m : M A) : framed m → advancing m.
Proof. intros H s. apply advances_frame, H. Qed.

Lemma advancing_bind {A B} (m : M A) (k : A → M B) :
  advancing m → (∀ a, advancing (k a)) → advancing (m ≫= k).
Proof.
  intros Hm Hk s. pose proof (Hm s) as H1. unfold_m.
  destruct (m s) as [[a| |] s1]; cbn in *; [|done..].
  eapply advances_trans; [exact H1|apply Hk].
Qed.

Lemma advancing_try {A} (m : M A) (h : exn → M A) :
  advancing m → (∀ e, advancing (h e)) → advancing (try_except m h).
Proof.
  intros Hm Hh s. pose proof (Hm s) as H1. unfold_m.
  destruct (m s) as [[|e|] s1]; cbn in *; [done| |done].
  eapply advances_trans; [exact H1|apply Hh].
Qed.

Lemma advancing_for_each {A} (l : list A) (f : A → M unit) :
  (∀ a, advancing (f a)) → advancing (for_each l f).
Proof.
  intros Hf. induction l as [|a l IH]; [intros s; apply advances_refl|].
  cbn [for_each]. apply advancing_bind; [apply Hf|by intros _].
Qed.

Lemma advancing_modify f : (∀ s, advances s (f s)) → advancing (modify f).
Proof. intros H s. apply H. Qed.

Ltac same_ledger := let ids := fresh in let H := fresh in intros ids H; by exists ids.

Lemma advances_emit e s : advances s (emit e s).
Proof. split_and!; [by exists [e]|done|same_ledger]. Qed.

Lemma advancing_save ids : advancing (save_notified_ids ids).
Proof.
  unfold save_notified_ids. apply advancing_modify. intros s.
  split_and!; [by eexists|done|same_ledger].
Qed.

Lemma advancing_read : advancing read_notified_ids.
Proof.
  intros s. unfold read_notified_ids. unfold_m.
  destruct (notified_ids s); apply advances_refl.
Qed.

Lemma advancing_notify W msg : advancing (send_notification W msg).
Proof.
  intros s. unfold send_notification.
  destruct (notify_outcome W (notify_calls s));
    (split_and!; [by exists [ENotify msg]|done|same_ledger]).
Qed.

Lemma advancing_now W : advancing (datetime_now W).
Proof. intros s. apply (advances_refl s). Qed.

Lemma advancing_round_uniform W a b : advancing (round_uniform W a b).
Proof. intros s. apply (advances_refl s). Qed.

Lemma advancing_set_count f : advancing (modify (λ s, set_count (f s) s)).
Proof. intros s. apply (advances_refl s). Qed.

Lemma advancing_reset_attempts : advancing (modify (set_attempts 0)).
Proof.
  intros s. split_and!; [exists []; cbn; by rewrite app_nil_r|done|same_ledger].
Qed.

Lemma advancing_next_attempt : advancing (modify (λ s, set_attempts (attempts s + 1) s)).
Proof.
  intros s. split_and!; [exists []; cbn; by rewrite app_nil_r|cbn; lia|same_ledger].
Qed.

Lemma advancing_notify_item W items item : advancing (notify_item W items item).
Proof.
  intros s. unfold notify_item, read_notified_ids, save_notified_ids. unfold_m.
  destruct (extract_id W items) as [id|e|]; [|apply advances_refl..].
  destruct (notified_ids s) as [ids|] eqn:Hids; [|apply advances_refl].
  destruct (bool_decide (HStr id ∈ ids)); [apply advances_refl|].
  cbn. destruct (notify_outcome W (notify_calls s)); cbn.
  { split_and!; [by eexists|done|]. intros ids0 H0. exists ids0. by rewrite <- H0. }
  split_and!; [eexists; cbn; by rewrite <- app_assoc|done|].
  intros ids0 H0. eexists. split; [reflexivity|]. rewrite Hids in H0.
  injection H0 as <-. set_solver.
Qed.

Lemma advancing_process_items W items : advancing (process_items W items).
Proof.
  unfold process_items. destruct (truthy items); [|intros s; apply advances_refl].
  apply advancing_bind; [apply advancing_framed, framed_lift|].
  intros l. apply advancing_for_each, advancing_notify_item.
Qed.

Ltac advancing_step :=
  repeat first
    [ apply advancing_bind; [|intros ?]
    | apply advancing_try; [|intros ?]
    | apply advancing_save
    | apply advancing_read
    | apply advancing_notify
    | apply advancing_now
    | apply advancing_round_uniform
    | apply advancing_process_items
    | apply advancing_reset_attempts
    | apply advancing_next_attempt
    | apply (advancing_set_count (λ _, 1))
    | apply (advancing_set_count (λ s, count s + 1))
    | apply advancing_framed; solve [eauto with framed]
    | match goal with
      | |- advancing (if ?b then _ else _) => destruct b
      | |- advancing (match ?t with _ => _ end) => destruct t
      end ].

Lemma advancing_check_event_availability W : advancing (check_event_availability W).
Proof. apply advancing_framed, framed_check_event_availability. Qed.

Lemma advancing_poll_cycle W d : advancing (poll_cycle W d).
Proof.
  unfold poll_cycle.
  apply advancing_bind; [apply advancing_framed, framed_log|intros _].
  apply advancing_bind; [apply advancing_check_event_availability|intros items].
  advancing_step.
Qed.

Lemma advancing_on_not_two_hundred W d : advancing (on_not_two_hundred W d).
Proof. unfold on_not_two_hundred. advancing_step. Qed.

Lemma advancing_iteration W : advancing (iteration W).
Proof.
  unfold iteration. apply advancing_bind; [apply advancing_now|intros now].
  destruct (quiet_window now).
  - advancing_step.
  - apply advancing_bind; [apply advancing_round_uniform|intros time_delay].
    apply advancing_bind; [apply advancing_round_uniform|intros auth_time_delay].
    apply advancing_try; [apply advancing_poll_cycle|intros e].
    destruct (is_class (class_of e) NotTwoHundredStatusError);
      [apply advancing_on_not_two_hundred|apply advancing_framed, framed_raise].
Qed.

Lemma advancing_loop W fuel : advancing (loop W fuel).
Proof.
  induction fuel as [|fuel IH]; [intros s; apply advances_refl|].
  cbn [loop]. apply advancing_bind; [apply advancing_iteration|by intros _].
Qed.

(** X10: through any number of passes of the main loop, whatever the
    environment answers, [notified_ids] stays bound and loses no id. *)
Theorem ledger_only_grows W fuel s ids :
  notified_ids s = Some ids →
  ∃ ids', notified_ids (snd (loop W fuel s)) = Some ids' ∧ ids ⊆ ids'.
Proof. intros H. by apply advancing_loop. Qed.

Lemma ledger_only_grows_witness :
  ∃ ids', notified_ids (snd (loop W_single_record 2 (in_loop {[HStr "B"]} 0))) = Some ids' ∧
    {[HStr "B"]} ⊆ ids'.
Proof. apply (ledger_only_grows W_single_record 2 (in_loop {[HStr "B"]} 0)). reflexivity. Defined.

(** ** How [run] ends *)

Lemma never_returns_loop W fuel : never_returns (loop W fuel).
Proof.
  induction fuel as [|fuel IH]; [by intros s a s'|].
  cbn [loop]. apply never_returns_bind. by intros _.
Qed.

Lemma never_returns_run_body W fuel : never_returns (run_body W fuel).
Proof.
  unfold run_body. repeat (apply never_returns_bind; intros ?).
  match goal with |- never_returns (match ?t with _ => _ end) => destruct t end;
    try apply never_returns_raise;
    repeat (apply never_returns_bind; intros ?); apply never_returns_loop.
Qed.

Lemma run_handlers_dumped W e s s' : run_handlers W e s = (Ret tt, s') → dumped s'.
Proof.
  unfold run_handlers, read_notified_ids, save_notified_ids, conn_close. unfold_m.
  destruct (is_class (class_of e) KeyboardInterrupt).
  - cbn. destruct (notified_ids s) as [ids|] eqn:Hids; [|done].
    intros [= <-]. by exists ids.
  - destruct (is_Exception (class_of e)); [|done].
    destruct (notified_ids s) as [ids|] eqn:Hids; [|done].
    cbn. destruct (notify_outcome W (notify_calls s)); [done|].
    intros [= <-]. by exists ids.
Qed.

(** X11: whenever [run] returns (rather than ending in an exception),
    it has written the ledger last: the file holds the list of the ids in
    [notified_ids]. *)
Theorem run_returns_dumped W fuel s s' :
  run W fuel s = (Ret tt, s') →
  ∃ ids, notified_ids s' = Some ids ∧
    notified_file s' = Some (JsonText (py_list_of_set ids)).
Proof.
  unfold run, try_except. intros H.
  destruct (run_body W fuel s) as [[[]|e|] s1] eqn:Hbody.
  - by apply never_returns_run_body in Hbody.
  - by apply run_handlers_dumped in H.
  - done.
Qed.

Lemma run_returns_dumped_witness :
  ∃ ids, notified_ids (snd (run W_two_listings 1 (initial None))) = Some ids ∧
    notified_file (snd (run W_two_listings 1 (initial None)))
      = Some (JsonText (py_list_of_set ids)).
Proof.
  apply (run_returns_dumped W_two_listings 1 (initial None)). vm_compute. reflexivity.
Defined.

(** ** [run] before the first request *)

Lemma load_notified_ids_file s s0 :
  notified_file s = notified_file s0 →
  load_notified_ids s = (fst (load_notified_ids s0), s).
Proof.
  intros Hf. unfold load_notified_ids, json_load. unfold_m. rewrite Hf.
  destruct (notified_file s0) as [[v|g|e]|]; [|done| |done].
  - cbn. destruct (py_set v) as [ids|e|]; [done| |done].
    by destruct (is_class (class_of e) JSONDecodeError).
  - cbn. by destruct (is_class (class_of e) JSONDecodeError).
Qed.

Lemma check_env_variables_missing W s key :
  key ∈ REQUIRED_ENV_VARIABLES → env_missing W key = true →
  check_env_variables W s =
    (Raise (Exn RuntimeError "Missing required environment variables"),
     State (sock s) (notified_file s)
       (trace s ++ map not_set (List.filter (env_missing W) REQUIRED_ENV_VARIABLES))
       (connect_calls s) (request_calls s) (response_calls s)
       (clock_calls s) (random_calls s) (notify_calls s) (count s) (attempts s)
       (notified_ids s)).
Proof.
  intros Hkey Hm. unfold check_env_variables.
  destruct (List.filter (env_missing W) REQUIRED_ENV_VARIABLES) as [|k l] eqn:Hf.
  - assert (Hin : In key (List.filter (env_missing W) REQUIRED_ENV_VARIABLES))
      by (apply filter_In; split; [by apply list_elem_of_In|done]).
    rewrite Hf in Hin. destruct Hin.
  - unfold_m. by rewrite for_each_log.
Qed.

Lemma notifications_not_set keys : notifications (map not_set keys) = [].
Proof. by induction keys. Qed.

(** X12: when a required variable is missing (and the ledger can be
    loaded), [run] ends without a connect attempt or a request; it writes
    the loaded ledger back and hands one notification to the notifier,
    which reports cycle 1 and the message of the [RuntimeError].  [run]
    returns when the notifier returns, and ends in the notifier's
    exception when the notifier raises. *)
Theorem run_missing_variable W fuel s ids key :
  fst (load_notified_ids s) = Ret ids →
  key ∈ REQUIRED_ENV_VARIABLES → env_missing W key = true →
  ∃ s',
    run W fuel s
      = (match notify_outcome W (notify_calls s) with
         | None => Ret tt
         | Some e => Raise e
         end, s') ∧
    notifications (trace s')
      = notifications (trace s)
        ++ ["Cycle 1 Caught exception Missing required environment variables"] ∧
    connect_calls s' = connect_calls s ∧ request_calls s' = request_calls s ∧
    notified_file s' = Some (JsonText (py_list_of_set ids)).
Proof.
  intros Hload Hkey Hm. unfold run, run_body, try_except. unfold_m.
  set (s1 := set_count 1 (emit (ELog DEBUG "Checking env variables") s)).
  rewrite (load_notified_ids_file s1 s) by reflexivity. rewrite Hload.
  rewrite (check_env_variables_missing W _ key Hkey Hm).
  generalize (List.filter (env_missing W) REQUIRED_ENV_VARIABLES). intros missing.
  unfold run_handlers, read_notified_ids, save_notified_ids. unfold_m. cbn.
  destruct (notify_outcome W (notify_calls s));
    (eexists; split; [reflexivity|]; cbn;
     rewrite !notifications_app, notifications_not_set; cbn;
     by rewrite !app_nil_r).
Qed.

Lemma run_missing_variable_witness :
  ∃ s', run W_incomplete 0 (initial None) = (Ret tt, s') ∧
    notifications (trace s')
      = ["Cycle 1 Caught exception Missing required environment variables"] ∧
    connect_calls s' = 0%nat ∧
    notified_file s' = Some (JsonText (PList [])).
Proof.
  destruct (run_missing_variable W_incomplete 0 (initial None) ∅ "TWICKETS_EVENT_ID")
    as (s' & Hrun & Hn & Hc & _ & Hf).
  - reflexivity.
  - apply list_elem_of_In. cbn. tauto.
  - reflexivity.
  - exists s'. split; [exact Hrun|]. split; [exact Hn|]. split; [exact Hc|exact Hf].
Defined.

(** The same start when the push service cannot be reached: the exception
    of the notifier leaves [run]. *)
Example run_missing_variable_unreachable :
  fst (run W_incomplete_unreachable 0 (initial None)) = Raise push_unreachable.
Proof. reflexivity. Qed.

(** X13: when the ledger file holds a JSON document that [set(...)]
    rejects, [run] ends in [UnboundLocalError]: the [TypeError] of
    [load_notified_ids] reaches the [except Exception] clause, whose first
    statement reads [notified_ids], not yet bound.  Nothing is notified,
    the file is left as it was and no connect attempt is made. *)
Theorem run_unloadable_ledger W fuel s v e :
  notified_file s = Some (JsonText v) → py_set v = Raise e → notified_ids s = None →
  ∃ s', run W fuel s
        = (Raise (Exn UnboundLocalError
                    "local variable 'notified_ids' referenced before assignment"), s') ∧
    notifications (trace s') = notifications (trace s) ∧
    notified_file s' = notified_file s ∧
    connect_calls s' = connect_calls s.
Proof.
  intros Hf Hset Hnone.
  destruct (py_set_cases v) as [[ids Hv]|[m Hv]]; [congruence|].
  assert (e = Exn TypeError m) as -> by congruence.
  unfold run, run_body, try_except. unfold_m.
  set (s1 := set_count 1 (emit (ELog DEBUG "Checking env variables") s)).
  rewrite (load_notified_ids_file s1 s) by reflexivity.
  unfold load_notified_ids, json_load. unfold_m. rewrite Hf. cbn. rewrite Hset. cbn.
  unfold read_notified_ids. unfold_m. cbn. rewrite Hnone.
  eexists. split; [reflexivity|]. cbn. rewrite notifications_app. cbn.
  by rewrite app_nil_r.
Qed.

Lemma run_unloadable_ledger_witness :
  fst (run W_login 1 (initial (Some (JsonText (PInt 5)))))
    = Raise (Exn UnboundLocalError
               "local variable 'notified_ids' referenced before assignment").
Proof.
  destruct (run_unloadable_ledger W_login 1 (initial (Some (JsonText (PInt 5)))) (PInt 5)
              (Exn TypeError "'int' object is not iterable"))
    as (s' & -> & _); reflexivity.
Defined.

(** ** The end of the night *)

(** X14: a pass in the quiet window sleeps once, for more than 8 and at
    most 32 hours, and the sleep ends at 08:00:00 sharp, outside the quiet
    window. *)
Theorem quiet_pass_ends_at_eight W s :
  let now := clock W (clock_calls s) in
  quiet_window now = true →
  ∃ d, sleeps (trace (snd (iteration W s))) = sleeps (trace s) ++ [d] ∧
    hour (now + d) = 8 ∧ (now + d) mod hour_us = 0 ∧
    quiet_window (now + d) = false ∧
    8 * hour_us < d ≤ 32 * hour_us.
Proof.
  intros now Hq. exists (at_hour (now + day_us) 8 - now).
  assert (Hwake : now + (at_hour (now + day_us) 8 - now)
                  = (now / day_us + 1) * day_us + 8 * hour_us).
  { unfold at_hour, day_us, hour_us. Z.to_euclidean_division_equations. lia. }
  assert (Hhour : hour (now + (at_hour (now + day_us) 8 - now)) = 8).
  { rewrite Hwake. unfold hour, day_us, hour_us.
    Z.to_euclidean_division_equations. lia. }
  split_and!.
  - unfold iteration, datetime_now. unfold_m. cbn -[quiet_window at_hour].
    fold now. rewrite Hq. cbn -[at_hour]. rewrite !sleeps_app. cbn -[at_hour].
    by rewrite app_nil_r.
  - exact Hhour.
  - rewrite Hwake. unfold day_us, hour_us. Z.to_euclidean_division_equations. lia.
  - unfold quiet_window. rewrite Hhour. reflexivity.
  - unfold quiet_window in Hq. apply orb_true_iff in Hq.
    rewrite Z.leb_le, Z.ltb_lt in Hq. revert Hq.
    unfold hour, at_hour, day_us, hour_us. Z.to_euclidean_division_equations. lia.
  - unfold quiet_window in Hq. apply orb_true_iff in Hq.
    rewrite Z.leb_le, Z.ltb_lt in Hq. revert Hq.
    unfold hour, at_hour, day_us, hour_us. Z.to_euclidean_division_equations. lia.
Qed.

Lemma quiet_pass_ends_at_eight_witness :
  ∃ d, sleeps (trace (snd (iteration W_night (in_loop ∅ 0)))) = [d] ∧
    hour (eleven_pm + d) = 8.
Proof.
  destruct (quiet_pass_ends_at_eight W_night (in_loop ∅ 0)) as (d & Hs & Hh & _).
  - vm_compute. reflexivity.
  - exists d. split; [exact Hs|exact Hh].
Defined.

(** ** [authenticate] has no handler *)



(** ** A refused login *)

Lemma ensure_connection_first_try W s :
  connect_outcome W (connect_calls s) = None →
  _ensure_connection W s =
    (Ret tt,
     emit (ELog DEBUG "Connection successful")
       (set_sock true
          (tick_connect
             (emit EConnect
                (emit (ELog DEBUG "Attempting connection to www.twickets.live") s))))).
Proof.
  intros H. unfold _ensure_connection. change (Z.to_nat MAX_RETRIES) with 5%nat.
  cbn [ensure_loop]. unfold conn_connect. unfold_m.
  change (connect_calls (emit (ELog DEBUG "Attempting connection to www.twickets.live") s))
    with (connect_calls s).
  by rewrite H.
Qed.

Lemma filter_none {A} (f : A → bool) (l : list A) :
  (∀ x, x ∈ l → f x = false) → List.filter f l = [].
Proof.
  induction l as [|x l IH]; [done|]. intros H. cbn.
  rewrite (H x) by apply list_elem_of_here.
  apply IH. intros y Hy. apply H. by apply list_elem_of_further.
Qed.

Lemma authenticate_refused W s r :
  connect_outcome W (connect_calls s) = None →
  request_outcome W (request_calls s) = None →
  response_outcome W (response_calls s) = inr r →
  status r ≠ 200 →
  ∃ s', authenticate W s = (Ret PNone, s') ∧
    notifications (trace s') = notifications (trace s) ∧
    sleeps (trace s') = sleeps (trace s) ∧
    request_calls s' = S (request_calls s) ∧
    notify_calls s' = notify_calls s ∧
    count s' = count s ∧ notified_ids s' = notified_ids s ∧
    notified_file s' = notified_file s.
Proof.
  intros Hconn Hreq Hresp Hst. apply Z.eqb_neq in Hst.
  unfold authenticate. unfold mbind at 1. unfold M_bind.
  rewrite (ensure_connection_first_try W s Hconn).
  unfold conn_request, send_request, conn_getresponse. unfold_m.
  cbn -[validate_auth_response]. rewrite Hreq. cbn -[validate_auth_response].
  rewrite Hresp, Hst. eexists. split; [reflexivity|].
  cbn. rewrite !notifications_app, !sleeps_app. cbn. by rewrite !app_nil_r.
Qed.

(** X16: when the variables are set, the ledger loads, the first connect
    and the login request succeed and the login is answered with a status
    other than 200, [run] ends after that single request, without
    sleeping: it writes the loaded ledger back and hands one notification
    to the notifier, which reports cycle 1 and the failed
    authentication.  [run] returns when the notifier returns, and ends in
    the notifier's exception when the notifier raises. *)
Theorem run_login_refused W fuel s ids r :
  fst (load_notified_ids s) = Ret ids →
  (∀ key, key ∈ REQUIRED_ENV_VARIABLES → env_missing W key = false) →
  connect_outcome W (connect_calls s) = None →
  request_outcome W (request_calls s) = None →
  response_outcome W (response_calls s) = inr r →
  status r ≠ 200 →
  ∃ s',
    run W fuel s
      = (match notify_outcome W (notify_calls s) with
         | None => Ret tt
         | Some e => Raise e
         end, s') ∧
    notifications (trace s')
      = notifications (trace s)
        ++ ["Cycle 1 Caught exception Authentication failed for some reason"] ∧
    sleeps (trace s') = sleeps (trace s) ∧
    request_calls s' = S (request_calls s) ∧
    notified_file s' = Some (JsonText (py_list_of_set ids)).
Proof.
  intros Hload Henv Hconn Hreq Hresp Hst. unfold run, run_body, try_except. unfold_m.
  set (s1 := set_count 1 (emit (ELog DEBUG "Checking env variables") s)).
  rewrite (load_notified_ids_file s1 s) by reflexivity. rewrite Hload.
  unfold check_env_variables. rewrite (filter_none _ _ Henv). unfold_m.
  match goal with |- context [authenticate W ?st] => set (s2 := st) end.
  destruct (authenticate_refused W s2 r Hconn Hreq Hresp Hst)
    as (s3 & -> & Hn & Hsl & Hrq & Hnc & Hc & Hids & Hf).
  cbn. unfold read_notified_ids. unfold_m. rewrite Hids. cbn.
  rewrite Hnc. change (notify_calls s2) with (notify_calls s).
  destruct (notify_outcome W (notify_calls s));
    (eexists; split; [reflexivity|]; cbn; rewrite Hc, Hrq; cbn;
     rewrite !notifications_app, !sleeps_app, Hn, Hsl; subst s2 s1; cbn;
     rewrite !notifications_app, !sleeps_app; cbn; by rewrite !app_nil_r).
Qed.

Lemma run_login_refused_witness :
  ∃ s', run W_login_refused 1 (initial None) = (Ret tt, s') ∧
    notifications (trace s')
      = ["Cycle 1 Caught exception Authentication failed for some reason"] ∧
    request_calls s' = 1%nat.
Proof.
  destruct (run_login_refused W_login_refused 1 (initial None) ∅ (Response 401 BodyGarbled))
    as (s' & Hrun & Hn & _ & Hrq & _).
  - reflexivity.
  - intros key Hkey. apply list_elem_of_In in Hkey. cbn in Hkey.
    destruct Hkey as [<-|[<-|[<-|[<-|[<-|[<-|[]]]]]]]; reflexivity.
  - reflexivity.
  - reflexivity.
  - reflexivity.
  - cbn. lia.
  - exists s'. split; [exact Hrun|]. split; [exact Hn|exact Hrq].
Defined.

(** ** Every pass sleeps *)

Lemma advancing_result {A} (m : M A) s r s1 :
  advancing m → m s = (r, s1) → advances s s1.
Proof. intros Hm H. pose proof (Hm s) as Ha. by rewrite H in Ha. Qed.

Lemma slept_between s s1 s' d :
  advances s s1 → advances (emit (ESleep d) s1) s' →
  ∃ t, trace s' = trace s ++ t ∧ ESleep d ∈ t.
Proof.
  intros ([t1 Ht1] & _) ([t2 Ht2] & _). exists (t1 ++ [ESleep d] ++ t2). split.
  - rewrite Ht2. cbn. rewrite Ht1. by rewrite <- !app_assoc.
  - apply list_elem_of_In, in_or_app. right. by left.
Qed.

Lemma poll_cycle_returns W td s s' :
  poll_cycle W td s = (Ret tt, s') →
  ∃ s1, advances s s1 ∧ s' = emit (ESleep (seconds (td + 0))) s1.
Proof.
  unfold poll_cycle. intros H.
  apply bind_ret_inv in H as (? & s1 & H1 & H).
  apply bind_ret_inv in H as (items & s2 & H2 & H).
  apply bind_ret_inv in H as (? & s3 & H3 & H).
  apply bind_ret_inv in H as (? & s4 & H4 & H).
  apply bind_ret_inv in H as (? & s5 & H5 & H).
  exists s5. split; [|by injection H as <-].
  apply (advancing_result _ _ _ _ (advancing_framed _ (framed_log _ _))) in H1.
  apply (advancing_result _ _ _ _ (advancing_check_event_availability W)) in H2.
  apply (advancing_result _ _ _ _ advancing_reset_attempts) in H3.
  apply (advancing_result _ _ _ _ (advancing_set_count (λ s, count s + 1))) in H4.
  apply (advancing_result _ _ _ _ (advancing_process_items W items)) in H5.
  repeat (eapply advances_trans; [eassumption|]). apply advances_refl.
Qed.

Lemma on_not_two_hundred_returns W base s s' :
  on_not_two_hundred W base s = (Ret tt, s') →
  attempts s ≤ MAX_RETRIES ∧
  ∃ s1, advances s s1 ∧
    advances (emit (ESleep (seconds (base * 2 ^ attempts s))) s1) s'.
Proof.
  unfold on_not_two_hundred. intros H.
  apply bind_ret_inv in H as (? & s1 & H1 & H).
  apply bind_ret_inv in H as (sa & s2 & H2 & H).
  assert (s1 = emit (ELog DEBUG "Check availability status. Attempt") s) as ->
    by (by injection H1).
  assert (sa = emit (ELog DEBUG "Check availability status. Attempt") s) as ->
    by (by injection H2).
  assert (s2 = emit (ELog DEBUG "Check availability status. Attempt") s) as ->
    by (by injection H2).
  clear H1 H2.
  apply bind_ret_inv in H as (? & s3 & H3 & H).
  change (attempts (emit (ELog DEBUG "Check availability status. Attempt") s))
    with (attempts s) in *.
  destruct (MAX_RETRIES <? attempts s) eqn:Hmax.
  { by apply never_returns_give_up in H3. }
  apply Z.ltb_ge in Hmax. split; [exact Hmax|].
  assert (s3 = emit (ELog DEBUG "Check availability status. Attempt") s) as ->
    by (cbv [mret M_ret] in H3; congruence).
  clear H3.
  apply bind_ret_inv in H as (? & s4 & H4 & H).
  apply bind_ret_inv in H as (? & s5 & H5 & H).
  apply bind_ret_inv in H as (? & s6 & H6 & H).
  apply bind_ret_inv in H as (? & s7 & H7 & H).
  apply bind_ret_inv in H as (token & s8 & H8 & H).
  assert (s' = s8) as -> by (destruct token; cbv [raise mret M_ret] in H; congruence).
  exists s5. split.
  - apply (advancing_result _ _ _ _ (advancing_framed _ (framed_log _ _))) in H4.
    apply (advancing_result _ _ _ _ (advancing_framed _ framed_close)) in H5.
    eapply advances_trans; [apply advances_emit|].
    eapply advances_trans; eassumption.
  - assert (s6 = emit (ESleep (seconds (base * 2 ^ attempts s))) s5) as ->
      by (cbv [time_sleep modify] in H6; congruence).
    apply (advancing_result _ _ _ _ advancing_next_attempt) in H7.
    apply (advancing_result _ _ _ _ (advancing_framed _ (framed_authenticate W))) in H8.
    eapply advances_trans; eassumption.
Qed.

Lemma quiet_sleep_bounds now :
  quiet_window now = true →
  8 * hour_us < at_hour (now + day_us) 8 - now ≤ 32 * hour_us.
Proof.
  intros Hq. unfold quiet_window in Hq. apply orb_true_iff in Hq.
  rewrite Z.leb_le, Z.ltb_lt in Hq. revert Hq.
  unfold hour, at_hour, day_us, hour_us. Z.to_euclidean_division_equations. lia.
Qed.

(** X17: a pass of the main loop that completes, entered with [attempts]
    not negative, has slept at least once for [MIN_TIME] (15) seconds or
    more and leaves [attempts] not negative: the loop never polls twice
    without such a pause in between. *)
Theorem every_pass_sleeps W s s' :
  iteration W s = (Ret tt, s') → 0 ≤ attempts s →
  0 ≤ attempts s' ∧
  ∃ t d, trace s' = trace s ++ t ∧ ESleep d ∈ t ∧ seconds MIN_TIME ≤ d.
Proof.
  intros H Hatt. split.
  { pose proof (advancing_iteration W s) as (_ & Ha & _). rewrite H in Ha. by apply Ha. }
  unfold iteration in H.
  apply bind_ret_inv in H as (now & s0 & Hnow & H).
  assert (s0 = tick_clock s) as -> by (cbv [datetime_now] in Hnow; congruence).
  destruct (quiet_window now) eqn:Hq.
  - pose proof (quiet_sleep_bounds now Hq) as Hb.
    exists [ELog DEBUG "Sleeping until wake time"; ESleep (at_hour (now + day_us) 8 - now)],
      (at_hour (now + day_us) 8 - now).
    split_and!.
    + unfold_m. cbn -[at_hour] in H. injection H as <-. cbn -[at_hour].
      by rewrite <- app_assoc.
    + apply list_elem_of_In. right. by left.
    + unfold seconds, MIN_TIME, hour_us in *. lia.
  - apply bind_ret_inv in H as (td & s1 & Htd & H).
    apply bind_ret_inv in H as (base & s2 & Hbase & H).
    destruct (round_uniform_range W MIN_TIME MAX_TIME (tick_clock s)) as (td' & Htd' & Hr1 & _);
      [unfold MIN_TIME, MAX_TIME; lia|].
    rewrite Htd' in Htd. injection Htd as <- <-.
    destruct (round_uniform_range W 180 360 (tick_random (tick_clock s)))
      as (base' & Hbase' & Hr2 & _); [lia|].
    rewrite Hbase' in Hbase. injection Hbase as <- <-.
    set (s2 := tick_random (tick_random (tick_clock s))) in *.
    assert (Hs2 : advances s s2) by apply (advances_refl s).
    unfold try_except in H.
    destruct (poll_cycle W td' s2) as [[[]|e|] s3] eqn:Hp; [| |done].
    + injection H as <-.
      apply poll_cycle_returns in Hp as (s4 & Hadv & ->).
      destruct (slept_between s s4 (emit (ESleep (seconds (td' + 0))) s4)
                  (seconds (td' + 0))) as (t & Ht & Hin).
      * by eapply advances_trans.
      * apply advances_refl.
      * exists t, (seconds (td' + 0)). split_and!; [done..|]. unfold seconds. lia.
    + destruct (is_class (class_of e) NotTwoHundredStatusError); [|done].
      pose proof (advancing_result _ _ _ _ (advancing_poll_cycle W td') Hp) as Hadv.
      apply on_not_two_hundred_returns in H as (Hmax & s4 & Hadv4 & Hadv').
      assert (Hatt3 : 0 ≤ attempts s3) by (by apply Hadv).
      destruct (slept_between s s4 s' (seconds (base' * 2 ^ attempts s3))) as (t & Ht & Hin).
      * eapply advances_trans; [exact Hs2|]. by eapply advances_trans.
      * exact Hadv'.
      * exists t, (seconds (base' * 2 ^ attempts s3)). split_and!; [done..|].
        assert (0 < 2 ^ attempts s3) by (apply Z.pow_pos_nonneg; lia).
        unfold seconds, MIN_TIME. nia.
Qed.

Lemma every_pass_sleeps_witness :
  ∃ t d, trace (snd (iteration W_no_listings (in_loop ∅ 0))) = t ∧
    ESleep d ∈ t ∧ seconds 15 ≤ d.
Proof.
  destruct (every_pass_sleeps W_no_listings (in_loop ∅ 0)
              (snd (iteration W_no_listings (in_loop ∅ 0))))
    as (_ & t & d & Ht & Hin & Hd).
  - vm_compute. reflexivity.
  - vm_compute. discriminate.
  - exists t, d. split; [exact Ht|]. split; [exact Hin|exact Hd].
Defined.
